(** * Layout remapper: override resolution, geometry mapping, flow solver

    A shallow embedding of the two remapping engines of the repository:

    - [Instance]: the effect of [RemapperInstance] in
      [src/components/RemapperNode.tsx] (contain scale, per-layer
      centring, grid / distribution solver);
    - [Row]: the effect of [RemapperInstanceRow] in the second
      [RemapperNode] source (cover scale, whole-source centring,
      collision sweep).

    JavaScript numbers are kept abstract behind the class [JSNumber], so
    that everything that does not depend on arithmetic is proved for every
    number model.  Two models are given: IEEE binary64 ([float], what the
    program runs on; used to evaluate the engines on concrete inputs) and
    exact rationals ([Q], used for the arithmetic laws of the solvers,
    where rounding is abstracted away). *)

From Stdlib Require Import QArith Qminmax Lqa Sorted.
From Stdlib Require Import Floats.PrimFloat.
From stdpp Require Import base option list strings pretty gmap.

Set Default Proof Using "Type".

(* ================================================================== *)
(** ** JavaScript values *)
(* ================================================================== *)

(** The operations the engines perform on numbers. *)
Class JSNumber (num : Type) := {
  n0 : num;                       (* literal 0 *)
  n1 : num;                       (* literal 1.0 *)
  n2 : num;                       (* literal 2 *)
  n10 : num;                      (* literal 10 *)
  n005 : num;                     (* literal 0.05 *)
  of_index : nat -> num;          (* an array index as a number *)
  nadd : num -> num -> num;
  nsub : num -> num -> num;
  nmul : num -> num -> num;
  ndiv : num -> num -> num;
  Math_min : num -> num -> num;
  Math_max : num -> num -> num;
  nlt : num -> num -> bool;       (* a < b *)
  ntruthy : num -> bool           (* ToBoolean *)
}.

Declare Scope js_scope.
Delimit Scope js_scope with js.
Infix "+" := nadd : js_scope.
Infix "-" := nsub : js_scope.
Infix "*" := nmul : js_scope.
Infix "/" := ndiv : js_scope.
Infix "<?" := nlt : js_scope.

(** IEEE binary64. [Math.min] and [Math.max] return NaN as soon as one
    argument is NaN and order -0 below +0; a number is falsy when it is
    +0, -0 or NaN. *)
Module JSFloat.
Definition is_nan (f : float) : bool := negb (PrimFloat.eqb f f).

Definition min (a b : float) : float :=
  if is_nan a || is_nan b then nan
  else if PrimFloat.ltb a b then a
  else if PrimFloat.ltb b a then b
  else if get_sign a then a else b.

Definition max (a b : float) : float :=
  if is_nan a || is_nan b then nan
  else if PrimFloat.ltb a b then b
  else if PrimFloat.ltb b a then a
  else if get_sign a then b else a.

Definition truthy (f : float) : bool :=
  if PrimFloat.eqb f 0%float then false else PrimFloat.eqb f f.

Fixpoint of_index (n : nat) : float :=
  match n with
  | O => 0%float
  | S k => PrimFloat.add (of_index k) 1%float
  end.
End JSFloat.

#[export] Instance float_number : JSNumber float := {|
  n0 := 0%float;
  n1 := 1%float;
  n2 := 2%float;
  n10 := 10%float;
  n005 := 0x1.999999999999ap-5%float;   (* the double written 0.05 *)
  of_index := JSFloat.of_index;
  nadd := PrimFloat.add;
  nsub := PrimFloat.sub;
  nmul := PrimFloat.mul;
  ndiv := PrimFloat.div;
  Math_min := JSFloat.min;
  Math_max := JSFloat.max;
  nlt := PrimFloat.ltb;
  ntruthy := JSFloat.truthy
|}.

(** Exact rationals: the arithmetic of the engines without rounding and
    without the non-finite values (a division by zero yields 0 here, so
    this model is only used where no such division is at stake). *)
Module JSExact.
Definition ltb (a b : Q) : bool := negb (Qle_bool b a).
Definition truthy (a : Q) : bool := negb (Qeq_bool a 0).
Definition of_index (n : nat) : Q := inject_Z (Z.of_nat n).
End JSExact.

#[export] Instance Q_number : JSNumber Q := {|
  n0 := 0%Q;
  n1 := 1%Q;
  n2 := 2%Q;
  n10 := 10%Q;
  n005 := (5 # 100)%Q;
  of_index := JSExact.of_index;
  nadd := Qplus;
  nsub := Qminus;
  nmul := Qmult;
  ndiv := Qdiv;
  Math_min := Qmin;
  Math_max := Qmax;
  nlt := JSExact.ltb;
  ntruthy := JSExact.truthy
|}.

(** [a || b] on values of type [T | undefined] whose truthiness is
    [truthy]. *)
Definition js_or {T : Type} (truthy : T -> bool) (a b : option T) : option T :=
  match a with
  | Some v => if truthy v then a else b
  | None => b
  end.

(** A number that may be [undefined], kept only when truthy: the guard of
    [v ? .. : ..], [v && ..] and [v || ..]. *)
Definition if_truthy {num : Type} `{JSNumber num} (a : option num) : option num :=
  match a with
  | Some v => if ntruthy v then Some v else None
  | None => None
  end.

(** Truthiness of an optional string: [undefined] and [''] are falsy. *)
Definition str_truthy (s : option string) : bool :=
  match s with
  | Some s' => negb (String.eqb s' "")
  | None => false
  end.

(** [a === 'lit'] on a value that may be [undefined]. *)
Definition str_is (a : option string) (lit : string) : bool :=
  match a with
  | Some s => String.eqb s lit
  | None => false
  end.

(* ================================================================== *)
(** ** Data model *)
(* ================================================================== *)

Section DataModel.
Context {num : Type}.

Record Rect := mkRect { r_x : num; r_y : num; r_w : num; r_h : num }.

(** [LayerOverride]. The engines read [xOffset] and [yOffset] unguarded
    and guard [individualScale] and [rotation]. *)
Record LayerOverride := mkOverride {
  layerId : string;
  xOffset : num;
  yOffset : num;
  individualScale : option num;
  rotation : option num;
  layoutRole : option string;
  linkedAnchorId : option string;
  citedRule : option string
}.

(** [SerializableLayer]: a tree; [children] may be absent. *)
#[warnings="-register-all"] Inductive SerializableLayer := mkLayer {
  l_id : string;
  l_type : string;
  l_coords : Rect;
  l_children : option (list SerializableLayer);
  l_layoutRole : option string;
  l_linkedAnchorId : option string;
  l_citedRule : option string
}.

Record PhysicsRules := mkPhysics { preventOverlap : bool }.

(** [LayoutStrategy] ([aiStrategy]). *)
Record LayoutStrategy := mkStrategy {
  method : string;
  suggestedScale : option num;
  layoutMode : option string;
  st_overrides : option (list LayerOverride);
  replaceLayerId : option string;
  generativePrompt : option string;
  physicsRules : option PhysicsRules;
  isExplicitIntent : option bool;
  sourceReference : option string;
  triangulation : option string;
  timestamp : option num
}.

Record FeedbackStrategy := mkFeedback {
  fb_overrides : option (list LayerOverride);
  isCommitted : bool
}.

Record Transform := mkTransform {
  scaleX : num; scaleY : num; offsetX : num; offsetY : num; tr_rotation : num
}.

(** [TransformedLayer]: the layer's own fields (object spread) plus the
    transform, the mapped coords and the metadata. *)
#[warnings="-register-all"] Inductive TransformedLayer := mkTLayer {
  t_id : string;
  t_type : string;
  t_coords : Rect;
  t_transform : Transform;
  t_children : option (list TransformedLayer);
  t_layoutRole : option string;
  t_linkedAnchorId : option string;
  t_citedRule : option string;
  t_generativePrompt : option string
}.

Record ContainerContext := mkContainer { containerName : string; bounds : Rect }.

(** [MappingContext]: what the source handle resolves to. *)
Record MappingContext := mkContext {
  container : ContainerContext;
  layers : list SerializableLayer;
  aiStrategy : option LayoutStrategy;
  previewUrl : option string
}.

(** [ContainerDefinition]: an entry of a template. *)
Record ContainerDefinition := mkDefinition { cd_name : string; cd_bounds : Rect }.

Record Metrics := mkMetrics { m_w : num; m_h : num }.

Record TransformedPayload := mkPayload {
  status : string;
  sourceContainer : string;
  targetContainer : string;
  p_layers : list TransformedLayer;
  scaleFactor : num;
  metrics_source : Metrics;
  metrics_target : Metrics;
  p_targetBounds : Rect;
  isConfirmed : option bool;
  requiresGeneration : bool;
  p_previewUrl : option string;
  p_sourceReference : option string;
  generationId : num;
  p_triangulation : option string
}.

(** [overrides.find(o => o.layerId === layerId)]. *)
Definition find_override (layerId' : string) (os : list LayerOverride)
  : option LayerOverride :=
  List.find (fun o => String.eqb (layerId o) layerId') os.

(** A mutation of one element of an array of object references: the
    arrays the solvers build by [filter] hold references into the mapped
    array, which is modelled by positions in it. *)
Definition update_at (i : nat) (f : TransformedLayer -> TransformedLayer)
    (store : list TransformedLayer) : list TransformedLayer :=
  alter f i store.

(** [arr.filter(p)] as the positions of the elements it keeps. *)
Definition filter_refs (p : TransformedLayer -> bool)
    (store : list TransformedLayer) : list nat :=
  List.filter (fun i => match store !! i with Some l => p l | None => false end)
              (seq 0 (length store)).

(** [refs.forEach((l, idx) => ...)] where the callback mutates [l]. *)
Fixpoint forEach_from (idx : nat) (f : nat -> TransformedLayer -> TransformedLayer)
    (refs : list nat) (store : list TransformedLayer) : list TransformedLayer :=
  match refs with
  | [] => store
  | r :: rest => forEach_from (S idx) f rest (update_at r (f idx) store)
  end.

Definition forEach (f : nat -> TransformedLayer -> TransformedLayer)
    (refs : list nat) (store : list TransformedLayer) : list TransformedLayer :=
  forEach_from 0 f refs store.

Definition set_x (v : num) (l : TransformedLayer) : TransformedLayer :=
  let c := t_coords l in
  mkTLayer (t_id l) (t_type l) (mkRect v (r_y c) (r_w c) (r_h c)) (t_transform l)
           (t_children l) (t_layoutRole l) (t_linkedAnchorId l) (t_citedRule l)
           (t_generativePrompt l).

Definition set_y (v : num) (l : TransformedLayer) : TransformedLayer :=
  let c := t_coords l in
  mkTLayer (t_id l) (t_type l) (mkRect (r_x c) v (r_w c) (r_h c)) (t_transform l)
           (t_children l) (t_layoutRole l) (t_linkedAnchorId l) (t_citedRule l)
           (t_generativePrompt l).

Definition set_offsetX (v : num) (l : TransformedLayer) : TransformedLayer :=
  let t := t_transform l in
  mkTLayer (t_id l) (t_type l) (t_coords l)
           (mkTransform (scaleX t) (scaleY t) v (offsetY t) (tr_rotation t))
           (t_children l) (t_layoutRole l) (t_linkedAnchorId l) (t_citedRule l)
           (t_generativePrompt l).

(** The node reached from root [i] of a list of roots by a path of child
    positions. *)
Fixpoint layer_at (i : nat) (path : list nat) (ls : list SerializableLayer)
  : option SerializableLayer :=
  match ls !! i with
  | None => None
  | Some l =>
      match path with
      | [] => Some l
      | j :: rest => match l_children l with
                     | Some cs => layer_at j rest cs
                     | None => None
                     end
      end
  end.

Fixpoint tlayer_at (i : nat) (path : list nat) (ts : list TransformedLayer)
  : option TransformedLayer :=
  match ts !! i with
  | None => None
  | Some t =>
      match path with
      | [] => Some t
      | j :: rest => match t_children t with
                     | Some cs => tlayer_at j rest cs
                     | None => None
                     end
      end
  end.
End DataModel.

Arguments Rect : clear implicits.
Arguments LayerOverride : clear implicits.
Arguments SerializableLayer : clear implicits.
Arguments LayoutStrategy : clear implicits.
Arguments FeedbackStrategy : clear implicits.
Arguments Transform : clear implicits.
Arguments TransformedLayer : clear implicits.
Arguments ContainerContext : clear implicits.
Arguments MappingContext : clear implicits.
Arguments ContainerDefinition : clear implicits.
Arguments Metrics : clear implicits.
Arguments TransformedPayload : clear implicits.

(** [handle.startsWith(prefix)]. *)
Definition startsWith (handle pre : string) : bool := String.prefix pre handle.

(** [s || 'fallback'] on a string that may be [null]. *)
Definition str_or (s : option string) (fallback : string) : string :=
  match s with
  | Some s' => if String.eqb s' "" then fallback else s'
  | None => fallback
  end.

(** [method === 'GENERATIVE' || method === 'HYBRID'] on [strategy?.method]. *)
Definition generative_method {num : Type} (strategy : option (LayoutStrategy num)) : bool :=
  str_is (method <$> strategy) "GENERATIVE" || str_is (method <$> strategy) "HYBRID".

(* ================================================================== *)
(** ** The engine of [RemapperInstance] (src/components/RemapperNode.tsx) *)
(* ================================================================== *)

Module Instance.
Section Transformation.
Context {num : Type} `{JSNumber num}.
Variable sourceContainer : ContainerContext num.
Variable targetBounds : Rect num.
Variable aiStrategy : option (LayoutStrategy num).
Variable feedback : option (FeedbackStrategy num).

Local Open Scope js_scope.

(** [feedback?.overrides || aiStrategy?.overrides || []]: an array is
    truthy, also when empty. *)
Definition overrides : list (LayerOverride num) :=
  match feedback ≫= fb_overrides with
  | Some os => os
  | None => match aiStrategy ≫= st_overrides with
            | Some os => os
            | None => []
            end
  end.

Definition getOverride (layerId' : string) : option (LayerOverride num) :=
  find_override layerId' overrides.

(** The filter of the grid solver: no override, and role unset or 'flow'. *)
Definition isGridCandidate (l : TransformedLayer num) : bool :=
  match getOverride (t_id l) with
  | Some _ => false
  | None => negb (str_truthy (t_layoutRole l)) || str_is (t_layoutRole l) "flow"
  end.

Definition gridCandidates (transformed : list (TransformedLayer num)) : list nat :=
  filter_refs isGridCandidate transformed.

(** One-row distribution over the target width. *)
Definition distributeHorizontal (cands : list nat)
    (transformed : list (TransformedLayer num)) : list (TransformedLayer num) :=
  let totalW := r_w targetBounds in
  let margin := totalW * n005 in
  let availableW := totalW - (margin * n2) in
  let step := availableW / of_index (length cands) in
  forEach (fun idx l =>
             let slotCX := r_x targetBounds + margin + (step * of_index idx) + (step / n2) in
             set_x (slotCX - (r_w (t_coords l) / n2)) l)
          cands transformed.

(** One-column distribution over the target height. *)
Definition distributeVertical (cands : list nat)
    (transformed : list (TransformedLayer num)) : list (TransformedLayer num) :=
  let totalH := r_h targetBounds in
  let margin := totalH * n005 in
  let availableH := totalH - (margin * n2) in
  let step := availableH / of_index (length cands) in
  forEach (fun idx l =>
             let slotCY := r_y targetBounds + margin + (step * of_index idx) + (step / n2) in
             set_y (slotCY - (r_h (t_coords l) / n2)) l)
          cands transformed.

(** Steps 3 and 4 of [transformLayers]: the solver, at root depth only and
    only when a strategy is present. *)
Definition physicsEngine (depth : nat) (transformed : list (TransformedLayer num))
  : list (TransformedLayer num) :=
  match depth, aiStrategy with
  | O, Some strategy =>
      let cands := gridCandidates transformed in
      if negb (Nat.ltb 0 (length cands)) then transformed
      else if str_is (layoutMode strategy) "DISTRIBUTE_HORIZONTAL"
              || str_is (layoutMode strategy) "GRID"
      then distributeHorizontal cands transformed
      else if str_is (layoutMode strategy) "DISTRIBUTE_VERTICAL"
      then distributeVertical cands transformed
      else transformed
  | _, _ => transformed
  end.

(** The final scale of one layer. *)
Definition finalScale (override : option (LayerOverride num)) : num :=
  let scaleX_Global := r_w targetBounds / r_w (bounds sourceContainer) in
  let scaleY_Global := r_h targetBounds / r_h (bounds sourceContainer) in
  let uniformScale := Math_min scaleX_Global scaleY_Global in
  match if_truthy (override ≫= individualScale) with
  | Some s => uniformScale * s
  | None =>
      match if_truthy (aiStrategy ≫= suggestedScale) with
      | Some s => uniformScale * s
      | None => uniformScale
      end
  end.

(** The callback of [layers.map] in [transformLayers]; the recursive call
    on the children is [transformLayers(layer.children, depth + 1)]. *)
Fixpoint mapLayer (depth : nat) (layer : SerializableLayer num) : TransformedLayer num :=
  let override := getOverride (l_id layer) in
  let finalScale := finalScale override in
  let layerW := r_w (l_coords layer) * finalScale in
  let layerH := r_h (l_coords layer) * finalScale in
  let cx := r_x targetBounds + (r_w targetBounds / n2) in
  let cy := r_y targetBounds + (r_h targetBounds / n2) in
  let posX := match override with
              | Some o => r_x targetBounds + xOffset o
              | None => cx - (layerW / n2)
              end in
  let posY := match override with
              | Some o => r_y targetBounds + yOffset o
              | None => cy - (layerH / n2)
              end in
  {| t_id := l_id layer;
     t_transform :=
       {| scaleX := finalScale;
          scaleY := finalScale;
          offsetX := n0;
          offsetY := n0;
          tr_rotation := default n0 (if_truthy (override ≫= rotation)) |};
     t_coords := {| r_x := posX; r_y := posY; r_w := layerW; r_h := layerH |};
     t_layoutRole := override ≫= layoutRole;
     t_linkedAnchorId := override ≫= linkedAnchorId;
     t_citedRule := override ≫= citedRule;
     t_generativePrompt :=
       if generative_method aiStrategy then aiStrategy ≫= generativePrompt else None;
     t_type :=
       if str_is (aiStrategy ≫= replaceLayerId) (l_id layer) then "generative"
       else l_type layer;
     t_children :=
       match l_children layer with
       | Some cs => Some (physicsEngine (S depth) (map (mapLayer (S depth)) cs))
       | None => None
       end |}.

Definition transformLayers (layers : list (SerializableLayer num)) (depth : nat)
  : list (TransformedLayer num) :=
  physicsEngine depth (map (mapLayer depth) layers).

End Transformation.

(** [containerNameFromHandle]. *)
Definition containerNameFromHandle (handle : option string) : option string :=
  match handle with
  | None => None
  | Some h =>
      if String.eqb h "" then None
      else if startsWith h "slot-bounds-"
      then Some (String.substring 12 (String.length h - 12) h)
      else if startsWith h "target-out-" then Some "Proxy Target"
      else Some h
  end.

(** The effect of [RemapperInstance], from its resolved inputs: the payload
    handed to [registerPayload], or [None] when the effect returns early.
    [now] is the reading of [Date.now()], [targetHandle] the source handle
    of the target edge. *)
Definition RemapperInstance {num : Type} `{JSNumber num} (now : num)
    (sourceContext : option (MappingContext num))
    (targetBounds : option (Rect num)) (targetHandle : option string)
    (feedback : option (FeedbackStrategy num))
  : option (TransformedPayload num) :=
  match sourceContext, targetBounds with
  | Some ctx, Some tb =>
      let sourceContainer := container ctx in
      let aiStrategy := aiStrategy ctx in
      let resultLayers :=
        transformLayers sourceContainer tb aiStrategy feedback (layers ctx) 0 in
      Some {| status := "success";
              sourceContainer := containerName sourceContainer;
              targetContainer := str_or (containerNameFromHandle targetHandle) "Unknown";
              p_layers := resultLayers;
              scaleFactor := n1;
              metrics_source := {| m_w := r_w (bounds sourceContainer);
                                   m_h := r_h (bounds sourceContainer) |};
              metrics_target := {| m_w := r_w tb; m_h := r_h tb |};
              p_targetBounds := tb;
              isConfirmed := js_or (fun b : bool => b) (isCommitted <$> feedback)
                                   (aiStrategy ≫= isExplicitIntent);
              requiresGeneration := generative_method aiStrategy;
              p_previewUrl := previewUrl ctx;
              p_sourceReference := aiStrategy ≫= sourceReference;
              generationId := now;
              p_triangulation := aiStrategy ≫= triangulation |}
  | _, _ => None
  end.
End Instance.

(* ================================================================== *)
(** ** The engine of [RemapperInstanceRow] (second RemapperNode source) *)
(* ================================================================== *)

Module Row.
Section Transformation.
Context {num : Type} `{JSNumber num}.

Local Open Scope js_scope.

(** Overrides from feedback (high priority) or strategy (low priority). *)
Definition getOverride (layerId' : string)
    (feedback : option (FeedbackStrategy num))
    (strategy : option (LayoutStrategy num)) : option (LayerOverride num) :=
  let manual := match feedback ≫= fb_overrides with
                | Some os => find_override layerId' os
                | None => None
                end in
  match manual with
  | Some o => Some o
  | None =>
      match strategy ≫= st_overrides with
      | Some os => find_override layerId' os
      | None => None
      end
  end.

Variable sourceContainer : ContainerContext num.
Variable targetData : ContainerDefinition num.
Variable strategy : option (LayoutStrategy num).
Variable feedback : option (FeedbackStrategy num).

Definition srcW : num := r_w (bounds sourceContainer).
Definition srcH : num := r_h (bounds sourceContainer).
Definition tgtW : num := r_w (cd_bounds targetData).
Definition tgtH : num := r_h (cd_bounds targetData).
Definition tgtX : num := r_x (cd_bounds targetData).
Definition tgtY : num := r_y (cd_bounds targetData).

(** The suggested scale when truthy, else the cover fit. *)
Definition baseScale : num :=
  let scaleX := tgtW / srcW in
  let scaleY := tgtH / srcH in
  match if_truthy (strategy ≫= suggestedScale) with
  | Some s => s
  | None => Math_max scaleX scaleY
  end.

(** Steps 1 to 3 of [transformLayer]: the local variables [newX], [newY],
    [newW], [newH], [newScaleX], [newScaleY] and [rotation] once the
    override, if any, is applied. *)
Record Geometry := mkGeometry {
  newX : num; newY : num; newW : num; newH : num;
  newScaleX : num; newScaleY : num; g_rotation : num
}.

Definition geometry (coords : Rect num) (override : option (LayerOverride num))
  : Geometry :=
  let relX := r_x coords - r_x (bounds sourceContainer) in
  let relY := r_y coords - r_y (bounds sourceContainer) in
  let scaledW := srcW * baseScale in
  let scaledH := srcH * baseScale in
  let offsetX' := (tgtW - scaledW) / n2 in
  let offsetY' := (tgtH - scaledH) / n2 in
  let newX0 := (relX * baseScale) + offsetX' + tgtX in
  let newY0 := (relY * baseScale) + offsetY' + tgtY in
  let newW0 := r_w coords * baseScale in
  let newH0 := r_h coords * baseScale in
  match override with
  | None =>
      {| newX := newX0; newY := newY0; newW := newW0; newH := newH0;
         newScaleX := baseScale; newScaleY := baseScale; g_rotation := n0 |}
  | Some o =>
      let newX1 := newX0 + xOffset o in
      let newY1 := newY0 + yOffset o in
      let indScale := default n1 (if_truthy (individualScale o)) in
      let cx := newX1 + newW0 / n2 in
      let cy := newY1 + newH0 / n2 in
      let newW1 := newW0 * indScale in
      let newH1 := newH0 * indScale in
      {| newX := cx - newW1 / n2; newY := cy - newH1 / n2;
         newW := newW1; newH := newH1;
         newScaleX := baseScale * indScale; newScaleY := baseScale * indScale;
         g_rotation := default n0 (if_truthy (rotation o)) |}
  end.

Fixpoint transformLayer (layer : SerializableLayer num) : TransformedLayer num :=
  let override := getOverride (l_id layer) feedback strategy in
  let g := geometry (l_coords layer) override in
  {| t_id := l_id layer;
     t_coords := {| r_x := newX g; r_y := newY g; r_w := newW g; r_h := newH g |};
     t_transform := {| scaleX := newScaleX g; scaleY := newScaleY g;
                       offsetX := newX g; offsetY := newY g;
                       tr_rotation := g_rotation g |};
     t_type :=
       if str_is (method <$> strategy) "GENERATIVE"
          && str_is (strategy ≫= replaceLayerId) (l_id layer)
       then "generative" else l_type layer;
     t_generativePrompt :=
       if str_is (strategy ≫= replaceLayerId) (l_id layer)
       then strategy ≫= generativePrompt else None;
     t_layoutRole := l_layoutRole layer;
     t_linkedAnchorId := l_linkedAnchorId layer;
     t_citedRule := l_citedRule layer;
     t_children :=
       match l_children layer with
       | Some cs => Some (map transformLayer cs)
       | None => None
       end |}.

(** The filter of the collision solver. *)
Definition isFlowItem (l : TransformedLayer num) : bool :=
  let role := getOverride (t_id l) feedback strategy ≫= layoutRole in
  str_is role "flow" || (negb (str_truthy role) && negb (String.eqb (t_type l) "group")).

(** [flowItems.sort((a, b) => a.coords.x - b.coords.x)]: a stable sort, the
    comparator read on the mapped array; [b] goes before [a] when the
    comparator is positive. *)
Definition x_of (store : list (TransformedLayer num)) (ref : nat) : num :=
  match store !! ref with
  | Some l => r_x (t_coords l)
  | None => n0
  end.

Fixpoint sort_insert (store : list (TransformedLayer num)) (a : nat) (sorted : list nat)
  : list nat :=
  match sorted with
  | [] => [a]
  | b :: rest =>
      if n0 <? (x_of store a - x_of store b) then b :: sort_insert store a rest
      else a :: b :: rest
  end.

Definition sort_by_x (store : list (TransformedLayer num)) (refs : list nat) : list nat :=
  foldr (sort_insert store) [] refs.

Definition flowItems (transformedLayers : list (TransformedLayer num)) : list nat :=
  sort_by_x transformedLayers (filter_refs isFlowItem transformedLayers).

(** One iteration of the sweep, on [prev = flowItems[i-1]] and
    [curr = flowItems[i]]. *)
Definition sweepStep (prev curr : nat) (store : list (TransformedLayer num))
  : list (TransformedLayer num) :=
  match store !! prev, store !! curr with
  | Some p, Some c =>
      match getOverride (t_id c) feedback strategy with
      | Some _ => store
      | None =>
          let padding := n10 in
          let prevEnd := r_x (t_coords p) + r_w (t_coords p) in
          if r_x (t_coords c) <? prevEnd + padding then
            let diff := (prevEnd + padding) - r_x (t_coords c) in
            update_at curr (fun l => set_offsetX (offsetX (t_transform l) + diff)
                                       (set_x (r_x (t_coords l) + diff) l)) store
          else store
      end
  | _, _ => store
  end.

(** [for (let i = 1; i < flowItems.length; i++)]. *)
Fixpoint sweepFrom (prev : nat) (rest : list nat) (store : list (TransformedLayer num))
  : list (TransformedLayer num) :=
  match rest with
  | [] => store
  | curr :: rest' => sweepFrom curr rest' (sweepStep prev curr store)
  end.

Definition sweep (flow : list nat) (store : list (TransformedLayer num))
  : list (TransformedLayer num) :=
  match flow with
  | [] => store
  | first :: rest => sweepFrom first rest store
  end.

(** [strategy?.physicsRules?.preventOverlap]. *)
Definition preventOverlapEnabled : bool :=
  match strategy ≫= physicsRules with
  | Some rules => preventOverlap rules
  | None => false
  end.

(** Step C: the collision solver, on the root list. *)
Definition collisionSolver (transformedLayers : list (TransformedLayer num))
  : list (TransformedLayer num) :=
  if preventOverlapEnabled
  then sweep (flowItems transformedLayers) transformedLayers
  else transformedLayers.

End Transformation.

(** The effect of [RemapperInstanceRow], from its resolved inputs: the
    payload handed to [registerPayload], or [None] when the effect returns
    early. [now] is the reading of [Date.now()]. *)
Definition RemapperInstanceRow {num : Type} `{JSNumber num} (now : num)
    (sourceData : option (MappingContext num))
    (targetData : option (ContainerDefinition num))
    (feedback : option (FeedbackStrategy num))
  : option (TransformedPayload num) :=
  match sourceData, targetData with
  | Some src, Some tgt =>
      let strategy := aiStrategy src in
      let sourceContainer := container src in
      let transformedLayers :=
        collisionSolver strategy feedback
          (map (transformLayer sourceContainer tgt strategy feedback) (layers src)) in
      Some {| status := "success";
              sourceContainer := containerName sourceContainer;
              targetContainer := cd_name tgt;
              p_layers := transformedLayers;
              scaleFactor := baseScale sourceContainer tgt strategy;
              metrics_source := {| m_w := srcW sourceContainer; m_h := srcH sourceContainer |};
              metrics_target := {| m_w := tgtW tgt; m_h := tgtH tgt |};
              p_targetBounds := cd_bounds tgt;
              isConfirmed := js_or (fun b : bool => b) (isCommitted <$> feedback) (Some false);
              requiresGeneration := generative_method strategy;
              p_sourceReference := aiStrategy src ≫= sourceReference;
              generationId := default now (if_truthy (aiStrategy src ≫= timestamp));
              p_previewUrl := previewUrl src;
              p_triangulation := strategy ≫= triangulation |}
  | _, _ => None
  end.
End Row.

(* ================================================================== *)
(** ** Concrete inputs, in IEEE binary64 *)
(* ================================================================== *)

Module Sample.
Local Open Scope string_scope.
Local Open Scope float_scope.

(** A number is not finite when it is NaN, Infinity or -Infinity. *)
Definition non_finite (f : float) : bool :=
  JSFloat.is_nan f || PrimFloat.eqb (PrimFloat.abs f) infinity.

Definition layer (id : string) (x y w h : float) : SerializableLayer float :=
  {| l_id := id; l_type := "normal";
     l_coords := {| r_x := x; r_y := y; r_w := w; r_h := h |};
     l_children := None; l_layoutRole := None;
     l_linkedAnchorId := None; l_citedRule := None |}.

(** The layer of the end-to-end example: 50 x 50 at the origin. *)
Definition box : SerializableLayer float := layer "L" 0 0 50 50.

(** A source container [w] x [h] at the origin holding [ls]. *)
Definition source (w h : float) (ls : list (SerializableLayer float))
    (st : option (LayoutStrategy float)) : MappingContext float :=
  {| container := {| containerName := "hero";
                     bounds := {| r_x := 0; r_y := 0; r_w := w; r_h := h |} |};
     layers := ls; aiStrategy := st; previewUrl := None |}.

(** The target of the end-to-end example: 400 x 200 at (10, 10). *)
Definition slot : ContainerDefinition float :=
  {| cd_name := "slot";
     cd_bounds := {| r_x := 10; r_y := 10; r_w := 400; r_h := 200 |} |}.

Definition override (id : string) (dx dy : float) : LayerOverride float :=
  {| layerId := id; xOffset := dx; yOffset := dy; individualScale := None;
     rotation := None; layoutRole := None; linkedAnchorId := None;
     citedRule := None |}.

(** The two engines on one source, target and feedback. *)
Definition runInstance (src : MappingContext float)
    (fb : option (FeedbackStrategy float)) : option (TransformedPayload float) :=
  Instance.RemapperInstance 0%float (Some src) (Some (cd_bounds slot))
                            (Some "slot-bounds-slot") fb.

Definition runRow (src : MappingContext float)
    (fb : option (FeedbackStrategy float)) : option (TransformedPayload float) :=
  Row.RemapperInstanceRow 0%float (Some src) (Some slot) fb.

(** The coordinates of the first layer of a payload. *)
Definition first_coords (p : option (TransformedPayload float)) : option (Rect float) :=
  p ≫= (fun p' => t_coords <$> head (p_layers p')).
End Sample.

(** The rule in the words of the specification: the feedback's flag when
    feedback exists, else the strategy's explicit-intent flag when it
    carries one, else false. *)
Definition isConfirmed_spec {num : Type} (fb : option (FeedbackStrategy num))
    (st : option (LayoutStrategy num)) : bool :=
  match fb with
  | Some f => isCommitted f
  | None => match st ≫= isExplicitIntent with
            | Some b => b
            | None => false
            end
  end.

Module OverrideCase.
Import Sample.
Local Open Scope string_scope.
Local Open Scope float_scope.

(** The reviewer moved layer M; the strategy holds an override for L. *)
Definition feedback : FeedbackStrategy float :=
  {| fb_overrides := Some [override "M" 5 5]; isCommitted := false |}.

Definition aiStrategy : LayoutStrategy float :=
  {| method := "GEOMETRIC"; suggestedScale := None; layoutMode := None;
     st_overrides := Some [override "L" 1 2]; replaceLayerId := None;
     generativePrompt := None; physicsRules := None; isExplicitIntent := None;
     sourceReference := None; triangulation := None; timestamp := None |}.
End OverrideCase.

Module ConfirmCase.
Import Sample.
Local Open Scope string_scope.
Local Open Scope float_scope.

(** A strategy that carries the explicit-intent flag. *)
Definition intent : LayoutStrategy float :=
  {| method := "GEOMETRIC"; suggestedScale := None; layoutMode := None;
     st_overrides := None; replaceLayerId := None; generativePrompt := None;
     physicsRules := None; isExplicitIntent := Some true; sourceReference := None;
     triangulation := None; timestamp := None |}.

(** Feedback the reviewer has not committed. *)
Definition draft : FeedbackStrategy float :=
  {| fb_overrides := None; isCommitted := false |}.

Definition src : MappingContext float := source 100 100 [box] (Some intent).
End ConfirmCase.

Module GenerativeCase.
Import Sample.
Local Open Scope string_scope.
Local Open Scope float_scope.

(** A strategy of method [m] that marks layer L for replacement. *)
Definition replaceL (m : string) : LayoutStrategy float :=
  {| method := m; suggestedScale := None; layoutMode := None;
     st_overrides := None; replaceLayerId := Some "L";
     generativePrompt := Some "a red kite"; physicsRules := None;
     isExplicitIntent := None; sourceReference := None;
     triangulation := None; timestamp := None |}.

Definition other : SerializableLayer float := layer "M" 60 0 20 20.

Definition hero : ContainerContext float := container (source 100 100 [] None).

(** The mapped layer of each engine under strategy [replaceL m]. *)
Definition viaInstance (m : string) (l : SerializableLayer float) : TransformedLayer float :=
  Instance.mapLayer hero (cd_bounds slot) (Some (replaceL m)) None 0 l.

Definition viaRow (m : string) (l : SerializableLayer float) : TransformedLayer float :=
  Row.transformLayer hero slot (Some (replaceL m)) None l.
End GenerativeCase.

(** What the solvers never write: every field but [coords] and
    [transform]. *)
Definition off_geometry {num : Type} (l : TransformedLayer num) :=
  (t_id l, t_type l, t_children l, t_layoutRole l, t_linkedAnchorId l,
   t_citedRule l, t_generativePrompt l).

Definition same_frame {num : Type} (a b : TransformedLayer num) : Prop :=
  off_geometry a = off_geometry b.

Module LockCase.
Import Sample.
Local Open Scope string_scope.
Local Open Scope float_scope.

(** A strategy that pins L, asks for a one-row distribution and enables
    the collision sweep. *)
Definition pinL : LayoutStrategy float :=
  {| method := "GEOMETRIC"; suggestedScale := None;
     layoutMode := Some "DISTRIBUTE_HORIZONTAL";
     st_overrides := Some [override "L" 30 40]; replaceLayerId := None;
     generativePrompt := None; physicsRules := Some {| preventOverlap := true |};
     isExplicitIntent := None; sourceReference := None;
     triangulation := None; timestamp := None |}.

Definition hero : ContainerContext float := container (source 100 100 [] None).

Definition layers : list (SerializableLayer float) :=
  [layer "M" 50 0 20 20; box; layer "N" 0 0 20 20].

Definition mappedInstance : list (TransformedLayer float) :=
  map (Instance.mapLayer hero (cd_bounds slot) (Some pinL) None 0) layers.

Definition mappedRow : list (TransformedLayer float) :=
  map (Row.transformLayer hero slot (Some pinL) None) layers.
End LockCase.

Module ProvenanceCase.
Import Sample.
Local Open Scope string_scope.
Local Open Scope float_scope.

(** A group that holds one layer with provenance metadata. *)
Definition cited : SerializableLayer float :=
  {| l_id := "C"; l_type := "normal";
     l_coords := {| r_x := 0; r_y := 0; r_w := 50; r_h := 50 |};
     l_children := None; l_layoutRole := None;
     l_linkedAnchorId := Some "anchor-7"; l_citedRule := Some "rule-3" |}.

Definition group : SerializableLayer float :=
  {| l_id := "G"; l_type := "group";
     l_coords := {| r_x := 0; r_y := 0; r_w := 100; r_h := 100 |};
     l_children := Some [cited]; l_layoutRole := None;
     l_linkedAnchorId := None; l_citedRule := None |}.

Definition src : MappingContext float := source 100 100 [group] None.
End ProvenanceCase.

(** The slot centre in the words of the specification:
    [margin + step * i + step / 2] with [margin = 0.05 * W] and
    [step = (W - 2 * margin) / n]. *)
Definition slot_centre_spec {num : Type} `{JSNumber num} (W : num) (n i : nat) : num :=
  let margin := (n005 * W)%js in
  let step := ((W - n2 * margin) / of_index n)%js in
  (margin + step * of_index i + step / n2)%js.

(** A shift of a layer to the right: [coords.x] and [transform.offsetX]
    grow by [diff], nothing else changes. *)
Definition shifted_by {num : Type} `{JSNumber num} (diff : num)
    (l : TransformedLayer num) : TransformedLayer num :=
  set_offsetX (offsetX (t_transform l) + diff)%js (set_x (r_x (t_coords l) + diff)%js l).

(** What the sweep establishes for an adjacent pair, in exact arithmetic:
    [prev] and [next] as they end, [mapped] as [next] was mapped. *)
Definition separated (prev mapped next : TransformedLayer Q) : Prop :=
  (r_x (t_coords prev) + r_w (t_coords prev) + 10 <= r_x (t_coords next))%Q
  /\ (next = mapped
      \/ exists diff : Q,
           diff = (r_x (t_coords prev) + r_w (t_coords prev) + 10
                   - r_x (t_coords mapped))%Q
           /\ (0 < diff)%Q
           /\ next = shifted_by diff mapped).

Module DistributeCase.
Import Sample.
Local Open Scope string_scope.
Local Open Scope float_scope.

(** A strategy that asks for a one-row distribution. *)
Definition oneRow : LayoutStrategy float :=
  {| method := "GEOMETRIC"; suggestedScale := None;
     layoutMode := Some "DISTRIBUTE_HORIZONTAL";
     st_overrides := None; replaceLayerId := None;
     generativePrompt := None; physicsRules := None;
     isExplicitIntent := None; sourceReference := None;
     triangulation := None; timestamp := None |}.

Definition src : MappingContext float := source 100 100 [box] (Some oneRow).
End DistributeCase.

Module ExactCase.
Local Open Scope string_scope.
Local Open Scope Q_scope.

(** The target of the end-to-end example, in exact arithmetic. *)
Definition slot : Rect Q := {| r_x := 10; r_y := 10; r_w := 400; r_h := 200 |}.

(** A strategy that asks for a one-row distribution and enables the
    collision sweep. *)
Definition flow : LayoutStrategy Q :=
  {| method := "GEOMETRIC"; suggestedScale := None;
     layoutMode := Some "DISTRIBUTE_HORIZONTAL";
     st_overrides := None; replaceLayerId := None;
     generativePrompt := None; physicsRules := Some {| preventOverlap := true |};
     isExplicitIntent := None; sourceReference := None;
     triangulation := None; timestamp := None |}.

Definition mapped (id : string) (x w : Q) : TransformedLayer Q :=
  {| t_id := id; t_type := "normal";
     t_coords := {| r_x := x; r_y := 90; r_w := w; r_h := 40 |};
     t_transform := {| scaleX := 2; scaleY := 2; offsetX := x; offsetY := 90;
                       tr_rotation := 0 |};
     t_children := None; t_layoutRole := None; t_linkedAnchorId := None;
     t_citedRule := None; t_generativePrompt := None |}.

(** Two mapped layers that overlap: N at 30..70 and M at 50..90. *)
Definition store : list (TransformedLayer Q) := [mapped "M" 50 40; mapped "N" 30 40].
End ExactCase.

Module RoundingCase.
Import Sample.
Local Open Scope string_scope.
Local Open Scope float_scope.

(** A strategy that enables the collision sweep. *)
Definition noOverlap : LayoutStrategy float :=
  {| method := "GEOMETRIC"; suggestedScale := None; layoutMode := None;
     st_overrides := None; replaceLayerId := None;
     generativePrompt := None; physicsRules := Some {| preventOverlap := true |};
     isExplicitIntent := None; sourceReference := None;
     triangulation := None; timestamp := None |}.

(** Source and target are the same 100 x 100 frame, so the mapper is the
    identity on coordinates. P spans 16.3 .. 106.3 and C starts at 47.1
    (the doubles nearest to these decimals). *)
Definition src : MappingContext float :=
  source 100 100
    [layer "P" 0x1.04ccccccccccdp+4 0 90 10; layer "C" 0x1.78ccccccccccdp+5 0 10 10]
    (Some noOverlap).

Definition frame : ContainerDefinition float :=
  {| cd_name := "same";
     cd_bounds := {| r_x := 0; r_y := 0; r_w := 100; r_h := 100 |} |}.
End RoundingCase.

(* ================================================================== *)
(** ** The host side: edges, registries, channels *)
(* ================================================================== *)

Module Host.

(** An edge of the graph; a handle may be [null]. *)
Record Edge := mkEdge {
  e_source : string;
  e_sourceHandle : option string;
  e_target : string;
  e_targetHandle : option string
}.

(** What a template node registers: its containers. *)
Record Template (num : Type) := mkTemplate {
  containers : list (ContainerDefinition num)
}.
Arguments containers {num} _.
Arguments mkTemplate {num} _.

(** A node of the graph as [setNodes] sees it: its id, the
    [instanceCount] of its data, and everything else it holds. *)
Record FlowNode (other : Type) := mkNode {
  n_id : string;
  n_instanceCount : option nat;
  n_other : other
}.
Arguments n_id {other} _.
Arguments n_instanceCount {other} _.
Arguments n_other {other} _.
Arguments mkNode {other} _ _ _.

(** The template literal [`${prefix}${index}`]. *)
Definition handleId (prefix : string) (index : nat) : string :=
  prefix +:+ pretty index.

(** [edges.find(e => e.target === nodeId && e.targetHandle === handle)]. *)
Definition findEdge (nodeId handle : string) (edges : list Edge) : option Edge :=
  List.find (fun e => String.eqb (e_target e) nodeId && str_is (e_targetHandle e) handle)
            edges.

(** [name.replace('slot-bounds-', '')] under the guard
    [name.startsWith('slot-bounds-')]. *)
Definition stripSlotBounds (containerName : string) : string :=
  if startsWith containerName "slot-bounds-"
  then String.substring 12 (String.length containerName - 12) containerName
  else containerName.

Section Registries.
Context {num : Type} `{JSNumber num}.
Variable nodeId : string.
Variable index : nat.
Variable edges : list Edge.
Variable resolvedRegistry : gmap string (gmap string (MappingContext num)).
Variable templateRegistry : gmap string (Template num).
Variable feedbackRegistry : gmap string (gmap string (FeedbackStrategy num)).

(** [resolvedRegistry[edge.source]?.[edge.sourceHandle || '']] for the edge
    into [source-in-index]; the same in both components. *)
Definition sourceContext : option (MappingContext num) :=
  match findEdge nodeId (handleId "source-in-" index) edges with
  | Some sourceEdge =>
      resolvedRegistry !! e_source sourceEdge
        ≫= (fun handles => handles !! default "" (e_sourceHandle sourceEdge))
  | None => None
  end.

(** [feedbackRegistry[nodeId]?.[`result-out-${index}`] || null]. *)
Definition feedback : option (FeedbackStrategy num) :=
  feedbackRegistry !! nodeId ≫= (fun handles => handles !! handleId "result-out-" index).

(** [targetEdge?.sourceHandle]. *)
Definition targetHandle : option string :=
  findEdge nodeId (handleId "target-in-" index) edges ≫= e_sourceHandle.

(** The memo [targetBounds] of [RemapperInstance]. *)
Definition instance_targetBounds : option (Rect num) :=
  match findEdge nodeId (handleId "target-in-" index) edges with
  | None => None
  | Some targetEdge =>
      let containerName := stripSlotBounds (default "" (e_sourceHandle targetEdge)) in
      match templateRegistry !! e_source targetEdge with
      | Some template =>
          cd_bounds <$> List.find (fun c => String.eqb (cd_name c) containerName)
                                  (containers template)
      | None => None
      end
  end.

(** The memo [targetData] of [RemapperInstanceRow]. *)
Definition row_targetData : option (ContainerDefinition num) :=
  match findEdge nodeId (handleId "target-in-" index) edges with
  | None => None
  | Some edge =>
      match templateRegistry !! e_source edge with
      | Some template =>
          let containerName := stripSlotBounds <$> e_sourceHandle edge in
          List.find (fun c => str_is containerName (cd_name c)) (containers template)
      | None => None
      end
  end.

(** One channel of each component, from the registries to the call of
    [registerPayload]: the node id, the output handle and the payload. *)
Definition instance_channel (now : num)
  : option (string * string * TransformedPayload num) :=
  (fun payload => (nodeId, handleId "result-out-" index, payload))
    <$> Instance.RemapperInstance now sourceContext instance_targetBounds
          targetHandle feedback.

Definition row_channel (now : num)
  : option (string * string * TransformedPayload num) :=
  (fun payload => (nodeId, handleId "result-out-" index, payload))
    <$> Row.RemapperInstanceRow now sourceContext row_targetData feedback.

End Registries.

(** [data.instanceCount || 1]. *)
Definition instanceCount (data_instanceCount : option nat) : nat :=
  match data_instanceCount with
  | Some n => if Nat.eqb n 0 then 1 else n
  | None => 1
  end.

(** The indices [Array.from({ length: instanceCount }).map((_, i) => ..)]
    renders channels for. *)
Definition channels (data_instanceCount : option nat) : list nat :=
  seq 0 (instanceCount data_instanceCount).

(** The updater [addInstance] hands to [setNodes], for the node [id] whose
    rendered count is [count]. *)
Definition addInstance {other : Type} (id : string) (count : nat)
    (nds : list (FlowNode other)) : list (FlowNode other) :=
  map (fun n => if String.eqb (n_id n) id
                then mkNode (n_id n) (Some (count + 1)) (n_other n)
                else n) nds.

End Host.

Module WiringCase.
Import Sample.
Local Open Scope string_scope.
Local Open Scope float_scope.

(** Node "remap": channel 0 is fed by a resolver and by the slot "slot" of
    a template. *)
Definition sourceEdge : Host.Edge :=
  {| Host.e_source := "resolver"; Host.e_sourceHandle := Some "source-out-hero";
     Host.e_target := "remap"; Host.e_targetHandle := Some "source-in-0" |}.

Definition targetEdge : Host.Edge :=
  {| Host.e_source := "template"; Host.e_sourceHandle := Some "slot-bounds-slot";
     Host.e_target := "remap"; Host.e_targetHandle := Some "target-in-0" |}.

(** An edge into channel 1 of the same node. *)
Definition otherChannel : Host.Edge :=
  {| Host.e_source := "resolver"; Host.e_sourceHandle := Some "source-out-hero";
     Host.e_target := "remap"; Host.e_targetHandle := Some "source-in-1" |}.

Definition edges : list Host.Edge := [sourceEdge; targetEdge].

Definition resolvedRegistry : gmap string (gmap string (MappingContext float)) :=
  {[ "resolver" := {[ "source-out-hero" := source 100 100 [box] None ]} ]}.

Definition templateRegistry : gmap string (Host.Template float) :=
  {[ "template" := Host.mkTemplate [slot] ]}.

Definition feedbackRegistry : gmap string (gmap string (FeedbackStrategy float)) := ∅.

Definition nodes : list (Host.FlowNode string) :=
  [Host.mkNode "template" None "a template"; Host.mkNode "remap" (Some 2%nat) "a remapper"].
End WiringCase.

(** An edge feeds channel [index] of node [nodeId] when it ends in one of
    the two input handles of that channel. *)
Definition feeds (nodeId : string) (index : nat) (e : Host.Edge) : Prop :=
  Host.e_target e = nodeId
  /\ (Host.e_targetHandle e = Some (Host.handleId "source-in-" index)
      \/ Host.e_targetHandle e = Some (Host.handleId "target-in-" index)).

(** The transform of a node of [RemapperInstanceRow] restates its place:
    [offsetX], [offsetY] are the final [coords.x], [coords.y], and the
    scale is uniform. *)
Definition anchored {num : Type} (t : TransformedLayer num) : Prop :=
  offsetX (t_transform t) = r_x (t_coords t)
  /\ offsetY (t_transform t) = r_y (t_coords t)
  /\ scaleX (t_transform t) = scaleY (t_transform t).

(** The transform of a node of [RemapperInstance] holds no offset, the
    position being baked into [coords], and the scale is uniform. *)
Definition baked {num : Type} `{JSNumber num} (t : TransformedLayer num) : Prop :=
  offsetX (t_transform t) = n0
  /\ offsetY (t_transform t) = n0
  /\ scaleX (t_transform t) = scaleY (t_transform t).

(** The ids of a layer and of all the layers below it. *)
Fixpoint layer_ids {num : Type} (l : SerializableLayer num) : list string :=
  l_id l :: match l_children l with
            | Some cs => concat (map layer_ids cs)
            | None => []
            end.

(** Feedback with its override list replaced. *)
Definition with_overrides {num : Type} (fb : FeedbackStrategy num)
    (os : list (LayerOverride num)) : FeedbackStrategy num :=
  {| fb_overrides := Some os; isCommitted := isCommitted fb |}.

(** A source container with a width and a height: the fits divide by
    them. *)
Definition sized (sc : ContainerContext Q) : Prop :=
  ~ (r_w (bounds sc) == 0)%Q /\ ~ (r_h (bounds sc) == 0)%Q.

(** A layer moved to the right by the sweep: [coords.x] and
    [transform.offsetX] grow by one and the same [d >= 0], and nothing else
    changes. *)
Definition moved_right (a b : TransformedLayer Q) : Prop :=
  exists d : Q,
    (0 <= d)%Q
    /\ (r_x (t_coords b) == r_x (t_coords a) + d)%Q
    /\ (offsetX (t_transform b) == offsetX (t_transform a) + d)%Q
    /\ r_y (t_coords b) = r_y (t_coords a)
    /\ r_w (t_coords b) = r_w (t_coords a)
    /\ r_h (t_coords b) = r_h (t_coords a)
    /\ scaleX (t_transform b) = scaleX (t_transform a)
    /\ scaleY (t_transform b) = scaleY (t_transform a)
    /\ offsetY (t_transform b) = offsetY (t_transform a)
    /\ tr_rotation (t_transform b) = tr_rotation (t_transform a)
    /\ same_frame a b.

(** Induction on a layer tree: a property holds of every layer when it
    holds of a layer as soon as it holds of its children. *)
Fixpoint layer_tree_ind {num : Type} (P : SerializableLayer num -> Prop)
    (step : forall id ty co ch ro an ru,
        match ch with Some cs => Forall P cs | None => True end ->
        P (mkLayer id ty co ch ro an ru))
    (l : SerializableLayer num) : P l :=
  match l with
  | mkLayer id ty co ch ro an ru =>
      step id ty co ch ro an ru
        (match ch return match ch with Some cs => Forall P cs | None => True end with
         | Some cs =>
             (fix go (cs : list (SerializableLayer num)) : Forall P cs :=
                match cs as cs' return Forall P cs' with
                | [] => @List.Forall_nil _ P
                | c :: rest => @List.Forall_cons _ P c rest (layer_tree_ind P step c) (go rest)
                end) cs
         | None => I
         end)
  end.

Module ExactMapping.
Local Open Scope string_scope.
Local Open Scope Q_scope.

(** The end-to-end example in exact arithmetic: a source 100 x 100 at the
    origin, a target 400 x 200 at (10, 10). *)
Definition hero : ContainerContext Q :=
  {| containerName := "hero";
     bounds := {| r_x := 0; r_y := 0; r_w := 100; r_h := 100 |} |}.

Definition slot : ContainerDefinition Q :=
  {| cd_name := "slot"; cd_bounds := ExactCase.slot |}.

Definition layer (id : string) (x y w h : Q) : SerializableLayer Q :=
  {| l_id := id; l_type := "normal";
     l_coords := {| r_x := x; r_y := y; r_w := w; r_h := h |};
     l_children := None; l_layoutRole := None;
     l_linkedAnchorId := None; l_citedRule := None |}.

(** The reviewer moved L by (5, 7) and doubled its size. *)
Definition enlarge : LayerOverride Q :=
  {| layerId := "L"; xOffset := 5; yOffset := 7; individualScale := Some 2;
     rotation := None; layoutRole := None; linkedAnchorId := None;
     citedRule := None |}.

Definition feedback : FeedbackStrategy Q :=
  {| fb_overrides := Some [enlarge]; isCommitted := true |}.

(** A strategy that asks for a one-column distribution. *)
Definition oneColumn : LayoutStrategy Q :=
  {| method := "GEOMETRIC"; suggestedScale := None;
     layoutMode := Some "DISTRIBUTE_VERTICAL";
     st_overrides := None; replaceLayerId := None;
     generativePrompt := None; physicsRules := None;
     isExplicitIntent := None; sourceReference := None;
     triangulation := None; timestamp := None |}.
End ExactMapping.

Module GhostCase.
Import Sample.
Local Open Scope string_scope.
Local Open Scope float_scope.

(** Feedback that moves L, and an override for a layer that does not
    exist. *)
Definition feedback : FeedbackStrategy float :=
  {| fb_overrides := Some [override "L" 5 5]; isCommitted := false |}.

Definition ghost : LayerOverride float := override "ghost" 40 40.

Definition src : MappingContext float := source 100 100 [box] None.

(** The layers of [LockCase] under the strategy that pins L. *)
Definition pinned : MappingContext float :=
  source 100 100 LockCase.layers (Some LockCase.pinL).
End GhostCase.

(* ================================================================== *)
(** * Properties *)
(* ================================================================== *)

(* ================================================================== *)
(** ** Payload assembly *)
(* ================================================================== *)

Section Payload.
Context {num : Type} `{JSNumber num}.

(** The layers of a payload are the mapped roots after the solver. *)
Lemma instance_payload_layers now (ctx : MappingContext num) tb handle fb p :
  Instance.RemapperInstance now (Some ctx) (Some tb) handle fb = Some p ->
  p_layers p
  = Instance.physicsEngine tb (aiStrategy ctx) fb 0
      (map (Instance.mapLayer (container ctx) tb (aiStrategy ctx) fb 0) (layers ctx)).
Proof. intros Hreg. injection Hreg as <-. reflexivity. Qed.

Lemma row_payload_layers now (ctx : MappingContext num) tgt fb p :
  Row.RemapperInstanceRow now (Some ctx) (Some tgt) fb = Some p ->
  p_layers p
  = Row.collisionSolver (aiStrategy ctx) fb
      (map (Row.transformLayer (container ctx) tgt (aiStrategy ctx) fb) (layers ctx)).
Proof. intros Hreg. injection Hreg as <-. reflexivity. Qed.

(** C10. Whatever either engine registers has status 'success': the
    status field never tells a failure apart. *)
Theorem registered_status_success now src tb handle tgt fb
    (p : TransformedPayload num) :
  Instance.RemapperInstance now src tb handle fb = Some p
  \/ Row.RemapperInstanceRow now src tgt fb = Some p ->
  status p = "success".
Proof.
  intros [Hreg | Hreg].
  - unfold Instance.RemapperInstance in Hreg.
    destruct src as [ctx|], tb as [b|]; try discriminate.
    injection Hreg as <-. reflexivity.
  - unfold Row.RemapperInstanceRow in Hreg.
    destruct src as [ctx|], tgt as [t|]; try discriminate.
    injection Hreg as <-. reflexivity.
Qed.

(** C2, as the code has it. With source content and target bounds both
    present a payload with status 'success' is registered, whatever the
    bounds of the source container are: no input is screened out as
    degenerate. *)
Theorem connected_always_registers now (ctx : MappingContext num) tb handle tgt fb :
  (exists p, Instance.RemapperInstance now (Some ctx) (Some tb) handle fb = Some p
             /\ status p = "success")
  /\ (exists p, Row.RemapperInstanceRow now (Some ctx) (Some tgt) fb = Some p
                /\ status p = "success").
Proof. split; eexists; (split; [reflexivity | reflexivity]). Qed.

End Payload.

(** Witness of C10 on the end-to-end example. *)
Lemma registered_status_success_witness :
  exists p, Sample.runRow (Sample.source 100%float 100%float [Sample.box] None) None = Some p
            /\ status p = "success".
Proof.
  eexists. split; [reflexivity |].
  apply (registered_status_success 0%float
           (Some (Sample.source 100%float 100%float [Sample.box] None))
           None None (Some Sample.slot) None).
  right. reflexivity.
Defined.

(** C2 fails on the code: a source container of width 0 goes through the
    cover fit, [400 / 0] is Infinity and the mapped position [0 * Infinity]
    is NaN; the payload is registered with status 'success'. In the contain
    engine a 0 x 0 source gives -Infinity. *)
Lemma degenerate_source_registers_nan :
  Sample.runRow (Sample.source 0%float 100%float [Sample.box] None) None <> None
  /\ (exists p c,
        Sample.runRow (Sample.source 0%float 100%float [Sample.box] None) None = Some p
        /\ status p = "success"
        /\ Sample.first_coords (Some p) = Some c
        /\ JSFloat.is_nan (r_x c) = true
        /\ PrimFloat.eqb (r_w c) infinity = true)
  /\ (exists p c,
        Sample.runInstance (Sample.source 0%float 0%float [Sample.box] None) None = Some p
        /\ status p = "success"
        /\ Sample.first_coords (Some p) = Some c
        /\ Sample.non_finite (r_x c) = true).
Proof.
  split; [discriminate |].
  split; do 2 eexists; (split; [reflexivity |]); repeat split; reflexivity.
Qed.

(* ================================================================== *)
(** ** Override resolution *)
(* ================================================================== *)

Section Resolution.
Context {num : Type} `{JSNumber num}.

(** The resolver of [RemapperInstanceRow] returns the feedback override of
    a layer whenever feedback holds one. *)
Lemma row_getOverride_feedback id (fb : FeedbackStrategy num) st os o :
  fb_overrides fb = Some os ->
  find_override id os = Some o ->
  Row.getOverride id (Some fb) st = Some o.
Proof.
  intros Hos Hfind. unfold Row.getOverride. simpl. rewrite Hos, Hfind. reflexivity.
Qed.

(** ... and falls back, layer by layer, to the strategy's override. *)
Lemma row_getOverride_strategy id (fb : FeedbackStrategy num) (st : LayoutStrategy num)
    fos sos :
  fb_overrides fb = Some fos ->
  find_override id fos = None ->
  st_overrides st = Some sos ->
  Row.getOverride id (Some fb) (Some st) = find_override id sos.
Proof.
  intros Hf Hnone Hs. unfold Row.getOverride. simpl.
  rewrite Hf, Hnone, Hs. reflexivity.
Qed.

(** In [RemapperInstance] the feedback's list, once present, is the only
    list consulted. *)
Lemma instance_getOverride_feedback_only id (fb : FeedbackStrategy num) st os :
  fb_overrides fb = Some os ->
  Instance.getOverride st (Some fb) id = find_override id os.
Proof.
  intros Hos. unfold Instance.getOverride, Instance.overrides. simpl.
  rewrite Hos. reflexivity.
Qed.

End Resolution.

(** C1 on the code. With feedback that holds an override for M only, the
    resolver of [RemapperInstanceRow] still resolves the strategy's override
    for L, while the resolver of [RemapperInstance] resolves nothing for L:
    there the feedback's list has replaced the strategy's list as a whole. *)
Theorem instance_getOverride_loses_strategy_override :
  Row.getOverride "L" (Some OverrideCase.feedback) (Some OverrideCase.aiStrategy)
    = Some (Sample.override "L" 1 2)
  /\ Instance.getOverride (Some OverrideCase.aiStrategy) (Some OverrideCase.feedback) "L"
     = None
  /\ Instance.getOverride (Some OverrideCase.aiStrategy) None "L"
     = Some (Sample.override "L" 1 2).
Proof. repeat split; reflexivity. Qed.

(* ================================================================== *)
(** ** Confirmation flag *)
(* ================================================================== *)

Section Confirmation.
Context {num : Type} `{JSNumber num}.

(** C8, as the code has it. A committed feedback confirms the payload in
    both engines. Otherwise, whether feedback is absent or merely not
    committed, [RemapperInstance] yields the strategy's explicit-intent flag
    (undefined when none is carried) and [RemapperInstanceRow] yields
    false. *)
Theorem isConfirmed_by_engine now (ctx : MappingContext num) tb handle tgt fb pa pb :
  Instance.RemapperInstance now (Some ctx) (Some tb) handle fb = Some pa ->
  Row.RemapperInstanceRow now (Some ctx) (Some tgt) fb = Some pb ->
  match isCommitted <$> fb with
  | Some true => isConfirmed pa = Some true /\ isConfirmed pb = Some true
  | _ => isConfirmed pa = aiStrategy ctx ≫= isExplicitIntent
         /\ isConfirmed pb = Some false
  end.
Proof.
  intros Ha Hb. injection Ha as <-. injection Hb as <-. simpl.
  destruct fb as [f|]; simpl; [destruct (isCommitted f) |]; split; reflexivity.
Qed.

End Confirmation.

(** Witness of C8: uncommitted feedback over an explicit-intent strategy. *)
Lemma isConfirmed_by_engine_witness :
  exists pa pb,
    Sample.runInstance ConfirmCase.src (Some ConfirmCase.draft) = Some pa
    /\ Sample.runRow ConfirmCase.src (Some ConfirmCase.draft) = Some pb
    /\ isConfirmed pa = Some true /\ isConfirmed pb = Some false.
Proof.
  do 2 eexists. split; [reflexivity |]. split; [reflexivity |].
  exact (isConfirmed_by_engine 0%float ConfirmCase.src (cd_bounds Sample.slot)
           (Some "slot-bounds-slot"%string) Sample.slot (Some ConfirmCase.draft)
           _ _ eq_refl eq_refl).
Defined.

(** C8 fails on the code. With feedback present and not committed,
    [RemapperInstance] confirms on the strategy's flag; with no feedback,
    [RemapperInstanceRow] ignores the strategy's flag. *)
Lemma isConfirmed_differs_from_rule :
  (exists p, Sample.runInstance ConfirmCase.src (Some ConfirmCase.draft) = Some p
             /\ isConfirmed p = Some true
             /\ isConfirmed_spec (Some ConfirmCase.draft) (Some ConfirmCase.intent) = false)
  /\ (exists p, Sample.runRow ConfirmCase.src None = Some p
                /\ isConfirmed p = Some false
                /\ isConfirmed_spec None (Some ConfirmCase.intent) = true).
Proof. split; eexists; repeat split; reflexivity. Qed.

(* ================================================================== *)
(** ** Generative promotion *)
(* ================================================================== *)

(** C5 on the code. Under a HYBRID strategy that replaces L,
    [RemapperInstanceRow] leaves L's type alone; under a GENERATIVE one,
    [RemapperInstance] puts the prompt on the unrelated layer M as well;
    under a GEOMETRIC one, [RemapperInstance] still retypes L and
    [RemapperInstanceRow] still puts the prompt on L. *)
Theorem generative_promotion_on_code :
  (t_type (GenerativeCase.viaRow "HYBRID" Sample.box) = "normal"
   /\ t_generativePrompt (GenerativeCase.viaRow "HYBRID" Sample.box) = Some "a red kite")
  /\ (t_type (GenerativeCase.viaInstance "GENERATIVE" GenerativeCase.other) = "normal"
      /\ t_generativePrompt (GenerativeCase.viaInstance "GENERATIVE" GenerativeCase.other)
         = Some "a red kite")
  /\ (t_type (GenerativeCase.viaInstance "GEOMETRIC" Sample.box) = "generative"
      /\ t_generativePrompt (GenerativeCase.viaInstance "GEOMETRIC" Sample.box) = None)
  /\ (t_type (GenerativeCase.viaRow "GEOMETRIC" Sample.box) = "normal"
      /\ t_generativePrompt (GenerativeCase.viaRow "GEOMETRIC" Sample.box)
         = Some "a red kite").
Proof. repeat split; reflexivity. Qed.

(* ================================================================== *)
(** ** Geometry of a layer without override *)
(* ================================================================== *)

Section Geometry.
Context {num : Type} `{JSNumber num}.
Local Open Scope js_scope.

(** The placement of a layer without resolved override by
    [RemapperInstanceRow]: its scaled offset inside the centred, scaled
    source. *)
Lemma row_geometry_formula (sourceContainer : ContainerContext num)
    targetData strategy feedback layer :
  Row.getOverride (l_id layer) feedback strategy = None ->
  let sb := bounds sourceContainer in
  let tb := cd_bounds targetData in
  let s := Row.baseScale sourceContainer targetData strategy in
  let c := t_coords (Row.transformLayer sourceContainer targetData strategy feedback layer) in
  r_x c = (r_x (l_coords layer) - r_x sb) * s + (r_w tb - r_w sb * s) / n2 + r_x tb
  /\ r_y c = (r_y (l_coords layer) - r_y sb) * s + (r_h tb - r_h sb * s) / n2 + r_y tb
  /\ r_w c = r_w (l_coords layer) * s
  /\ r_h c = r_h (l_coords layer) * s.
Proof.
  intros Hnone. destruct layer as [id ty co ch ro an ru]. simpl in *.
  rewrite Hnone. simpl. repeat split; reflexivity.
Qed.

(** The scale of that formula: the suggested scale when truthy, else the
    cover fit. *)
Lemma row_baseScale_cover (sourceContainer : ContainerContext num) targetData strategy :
  if_truthy (strategy ≫= suggestedScale) = None ->
  Row.baseScale sourceContainer targetData strategy
  = Math_max (r_w (cd_bounds targetData) / r_w (bounds sourceContainer))
             (r_h (cd_bounds targetData) / r_h (bounds sourceContainer)).
Proof. intros Hnone. unfold Row.baseScale. rewrite Hnone. reflexivity. Qed.

(** [RemapperInstance] instead centres every such layer in the target. *)
Lemma instance_geometry_without_override (sourceContainer : ContainerContext num)
    tb aiStrategy feedback depth layer :
  Instance.getOverride aiStrategy feedback (l_id layer) = None ->
  let s := Instance.finalScale sourceContainer tb aiStrategy None in
  let c := t_coords (Instance.mapLayer sourceContainer tb aiStrategy feedback depth layer) in
  r_w c = r_w (l_coords layer) * s
  /\ r_x c = (r_x tb + r_w tb / n2) - (r_w (l_coords layer) * s) / n2
  /\ r_y c = (r_y tb + r_h tb / n2) - (r_h (l_coords layer) * s) / n2.
Proof.
  intros Hnone. destruct layer as [id ty co ch ro an ru]. simpl in *.
  rewrite Hnone. simpl. repeat split; reflexivity.
Qed.

End Geometry.

(** C3, as the code has it. In every number model, a layer without resolved
    override is placed by [RemapperInstanceRow] at
    [(layer.x - sourceBounds.x) * baseScale
     + (targetBounds.w - sourceBounds.w * baseScale) / 2 + targetBounds.x],
    likewise for y, with size [layer.w * baseScale], [layer.h * baseScale],
    where [baseScale] is [Row.baseScale]: the suggested scale when truthy,
    else the cover fit. On the end-to-end example (binary64) the cover fit
    is [max 4 2 = 4] and the layer ends at x = 10, y = -90. *)
Theorem row_geometry_without_override :
  (forall (num : Type) (N : JSNumber num) (sourceContainer : ContainerContext num)
          targetData strategy feedback layer,
      Row.getOverride (l_id layer) feedback strategy = None ->
      let sb := bounds sourceContainer in
      let tb := cd_bounds targetData in
      let s := Row.baseScale sourceContainer targetData strategy in
      let c := t_coords (Row.transformLayer sourceContainer targetData strategy
                           feedback layer) in
      (r_x c = (r_x (l_coords layer) - r_x sb) * s + (r_w tb - r_w sb * s) / n2 + r_x tb
       /\ r_y c = (r_y (l_coords layer) - r_y sb) * s + (r_h tb - r_h sb * s) / n2 + r_y tb
       /\ r_w c = r_w (l_coords layer) * s
       /\ r_h c = r_h (l_coords layer) * s)%js)
  /\ Row.baseScale GenerativeCase.hero Sample.slot None = 4%float
  /\ t_coords (Row.transformLayer GenerativeCase.hero Sample.slot None None Sample.box)
     = {| r_x := 10%float; r_y := (-90)%float; r_w := 200%float; r_h := 200%float |}.
Proof.
  split; [| split; reflexivity].
  intros num N sourceContainer targetData strategy feedback layer Hnone.
  by apply row_geometry_formula.
Qed.

(** Witness of C3: the formula on the end-to-end example. *)
Lemma row_geometry_without_override_witness :
  Row.getOverride (num := float) (l_id Sample.box) None None = None
  /\ (let c := t_coords (Row.transformLayer GenerativeCase.hero Sample.slot None None
                           Sample.box) in
      r_x c = PrimFloat.add
                (PrimFloat.add (PrimFloat.mul (PrimFloat.sub 0 0) 4)
                   (PrimFloat.div (PrimFloat.sub 400 (PrimFloat.mul 100 4)) 2))
                10
      /\ r_x c = 10%float /\ r_y c = (-90)%float).
Proof.
  split; [reflexivity |].
  destruct row_geometry_without_override as [Hformula _].
  destruct (Hformula float float_number GenerativeCase.hero Sample.slot None None
              Sample.box eq_refl) as (Hx & Hy & _).
  cbv zeta in *. rewrite Hx, Hy. repeat split; reflexivity.
Defined.

(** C3 fails on the code at its own example (source 100 x 100 at the
    origin, layer 50 x 50 at the origin, target 400 x 200 at (10, 10)):
    [RemapperInstanceRow] fits by cover and places the layer at (10, -90);
    [RemapperInstance] fits by contain but centres the layer, at (160, 60).
    Neither yields (110, 10). *)
Lemma example_position_is_not_110_10 :
  (exists c, Sample.first_coords
               (Sample.runRow (Sample.source 100%float 100%float [Sample.box] None) None)
             = Some c
             /\ r_x c = 10%float /\ r_y c = (-90)%float
             /\ PrimFloat.eqb (r_x c) 110%float = false)
  /\ (exists c, Sample.first_coords
                  (Sample.runInstance (Sample.source 100%float 100%float [Sample.box] None)
                     None)
                = Some c
                /\ r_x c = 160%float /\ r_y c = 60%float
                /\ PrimFloat.eqb (r_x c) 110%float = false).
Proof. split; eexists; repeat split; reflexivity. Qed.

(* ================================================================== *)
(** ** What the solvers leave alone *)
(* ================================================================== *)

Create HintDb frames.

Section Frames.
Context {num : Type} `{JSNumber num}.
Implicit Types (store : list (TransformedLayer num)) (refs : list nat).

Lemma same_frame_refl (l : TransformedLayer num) : same_frame l l.
Proof. reflexivity. Qed.

Lemma same_frame_trans (a b c : TransformedLayer num) :
  same_frame a b -> same_frame b c -> same_frame a c.
Proof. unfold same_frame. congruence. Qed.

Lemma same_frame_set_x v (l : TransformedLayer num) : same_frame l (set_x v l).
Proof. reflexivity. Qed.

Lemma same_frame_set_y v (l : TransformedLayer num) : same_frame l (set_y v l).
Proof. reflexivity. Qed.

Lemma same_frame_set_offsetX v (l : TransformedLayer num) :
  same_frame l (set_offsetX v l).
Proof. reflexivity. Qed.

#[local] Hint Resolve same_frame_refl same_frame_set_x same_frame_set_y
  same_frame_set_offsetX : frames.

(** Membership in [arr.filter(p)]. *)
Lemma in_filter_refs p store i :
  In i (filter_refs p store) <-> exists l, store !! i = Some l /\ p l = true.
Proof.
  unfold filter_refs. rewrite filter_In, in_seq. split.
  - intros [_ Hp]. destruct (store !! i) as [l|]; [eauto | discriminate].
  - intros (l & Hl & Hp). rewrite Hl. split; [| exact Hp].
    apply lookup_lt_Some in Hl. lia.
Qed.

Lemma NoDup_filter_refs p store : List.NoDup (filter_refs p store).
Proof. apply List.NoDup_filter, List.seq_NoDup. Qed.

Lemma update_at_other i j f store :
  i <> j -> update_at i f store !! j = store !! j.
Proof. intros Hne. unfold update_at. by apply list_lookup_alter_ne. Qed.

Lemma update_at_same i f store :
  update_at i f store !! i = f <$> store !! i.
Proof. unfold update_at. apply list_lookup_alter_eq. Qed.

(** A mutation that keeps the frame of the element it touches keeps the
    frame of every element. *)
Lemma update_at_frame i f store j l :
  (forall a, same_frame a (f a)) ->
  store !! j = Some l ->
  exists l', update_at i f store !! j = Some l' /\ same_frame l l'.
Proof.
  intros Hf Hl. destruct (decide (i = j)) as [-> | Hne].
  - rewrite update_at_same, Hl. simpl. eauto.
  - rewrite update_at_other, Hl by done. eauto with frames.
Qed.

(** [forEach] reaches the referenced elements only. *)
Lemma forEach_from_other f refs : forall idx store j,
  ~ In j refs -> forEach_from idx f refs store !! j = store !! j.
Proof.
  induction refs as [| r refs IH]; intros idx store j Hj; simpl; [done |].
  rewrite IH by (intros ?; apply Hj; by right).
  apply update_at_other. intros ->. apply Hj. by left.
Qed.

(** ... and hands the callback the position in the array of references. *)
Lemma forEach_from_at f refs : forall idx store k r l,
  List.NoDup refs -> refs !! k = Some r -> store !! r = Some l ->
  forEach_from idx f refs store !! r = Some (f (idx + k)%nat l).
Proof.
  induction refs as [| r0 refs IH]; intros idx store k r l Hnd Hk Hl; [done |].
  apply List.NoDup_cons_iff in Hnd as [Hnotin Hnd]. simpl.
  destruct k as [| k]; simpl in Hk.
  - injection Hk as ->. rewrite forEach_from_other by done.
    rewrite update_at_same, Hl. simpl. by rewrite Nat.add_0_r.
  - assert (r0 <> r) as Hne.
    { intros ->. apply Hnotin. apply list_elem_of_In. by eapply list_elem_of_lookup_2. }
    rewrite (IH (S idx) _ k r l); [| done | done |].
    + f_equal. f_equal. lia.
    + by rewrite update_at_other.
Qed.

Lemma forEach_from_frame f refs : forall idx store j l,
  (forall k a, same_frame a (f k a)) ->
  store !! j = Some l ->
  exists l', forEach_from idx f refs store !! j = Some l' /\ same_frame l l'.
Proof.
  induction refs as [| r refs IH]; intros idx store j l Hf Hl; simpl.
  - eauto with frames.
  - destruct (update_at_frame r (f idx) store j l (Hf idx) Hl) as (l1 & Hl1 & Hfr1).
    destruct (IH (S idx) _ j l1 Hf Hl1) as (l2 & Hl2 & Hfr2).
    eauto using same_frame_trans.
Qed.

End Frames.

#[global] Hint Resolve same_frame_refl same_frame_set_x same_frame_set_y
  same_frame_set_offsetX : frames.

Section SolverFrames.
Context {num : Type} `{JSNumber num}.
Variable tb : Rect num.
Variable st : option (LayoutStrategy num).
Variable fb : option (FeedbackStrategy num).
Implicit Types (store : list (TransformedLayer num)) (l : TransformedLayer num).

(** A layer with a resolved override is no grid candidate. *)
Lemma locked_not_gridCandidate store i l :
  store !! i = Some l ->
  is_Some (Instance.getOverride st fb (t_id l)) ->
  ~ In i (Instance.gridCandidates st fb store).
Proof.
  intros Hl [o Ho] Hin. apply in_filter_refs in Hin as (l' & Hl' & Hp).
  rewrite Hl in Hl'. injection Hl' as <-.
  unfold Instance.isGridCandidate in Hp. rewrite Ho in Hp. discriminate.
Qed.

Lemma physicsEngine_locked depth store i l :
  store !! i = Some l ->
  is_Some (Instance.getOverride st fb (t_id l)) ->
  Instance.physicsEngine tb st fb depth store !! i = Some l.
Proof.
  intros Hl Hlocked. pose proof (locked_not_gridCandidate _ _ _ Hl Hlocked) as Hnotin.
  unfold Instance.physicsEngine.
  destruct depth; [| done]. destruct st as [strategy |]; [| done].
  repeat case_match; try done.
  - unfold Instance.distributeHorizontal, forEach. by rewrite forEach_from_other.
  - unfold Instance.distributeVertical, forEach. by rewrite forEach_from_other.
Qed.

Lemma physicsEngine_frame depth store j l :
  store !! j = Some l ->
  exists l', Instance.physicsEngine tb st fb depth store !! j = Some l' /\ same_frame l l'.
Proof.
  intros Hl. unfold Instance.physicsEngine.
  destruct depth; [| eauto with frames].
  destruct st as [strategy |]; [| eauto with frames].
  repeat case_match; eauto with frames.
  - apply forEach_from_frame; [| done]. intros; apply same_frame_set_x.
  - apply forEach_from_frame; [| done]. intros; apply same_frame_set_y.
Qed.

(** The sweep writes to [curr] only, and only when [curr] is not locked. *)
Lemma sweepStep_other prev curr store j :
  j <> curr -> Row.sweepStep st fb prev curr store !! j = store !! j.
Proof.
  intros Hne. unfold Row.sweepStep. repeat case_match; try done.
  by apply update_at_other.
Qed.

Lemma sweepStep_locked prev curr store i l :
  store !! i = Some l ->
  is_Some (Row.getOverride (t_id l) fb st) ->
  Row.sweepStep st fb prev curr store !! i = Some l.
Proof.
  intros Hl [o Ho]. unfold Row.sweepStep.
  destruct (store !! prev) as [p |] eqn:Hp; [| done].
  destruct (store !! curr) as [c |] eqn:Hc; [| done].
  destruct (Row.getOverride (t_id c) fb st) eqn:Hoc; [done |].
  case_match; [| done].
  rewrite update_at_other; [done |]. intros <-. congruence.
Qed.

Lemma sweepStep_frame prev curr store j l :
  store !! j = Some l ->
  exists l', Row.sweepStep st fb prev curr store !! j = Some l' /\ same_frame l l'.
Proof.
  intros Hl. unfold Row.sweepStep. repeat case_match; eauto with frames.
  apply update_at_frame; [| done]. intros a.
  eapply same_frame_trans; [apply same_frame_set_x | apply same_frame_set_offsetX].
Qed.

Lemma sweepFrom_locked rest : forall prev store i l,
  store !! i = Some l ->
  is_Some (Row.getOverride (t_id l) fb st) ->
  Row.sweepFrom st fb prev rest store !! i = Some l.
Proof.
  induction rest as [| curr rest IH]; intros prev store i l Hl Hlocked; simpl; [done |].
  apply IH; [| done]. by apply sweepStep_locked.
Qed.

Lemma sweepFrom_frame rest : forall prev store j l,
  store !! j = Some l ->
  exists l', Row.sweepFrom st fb prev rest store !! j = Some l' /\ same_frame l l'.
Proof.
  induction rest as [| curr rest IH]; intros prev store j l Hl; simpl.
  - eauto with frames.
  - destruct (sweepStep_frame prev curr store j l Hl) as (l1 & Hl1 & Hfr1).
    destruct (IH curr _ j l1 Hl1) as (l2 & Hl2 & Hfr2).
    eauto using same_frame_trans.
Qed.

Lemma collisionSolver_locked store i l :
  store !! i = Some l ->
  is_Some (Row.getOverride (t_id l) fb st) ->
  Row.collisionSolver st fb store !! i = Some l.
Proof.
  intros Hl Hlocked. unfold Row.collisionSolver, Row.sweep.
  repeat case_match; try done. by apply sweepFrom_locked.
Qed.

Lemma collisionSolver_frame store j l :
  store !! j = Some l ->
  exists l', Row.collisionSolver st fb store !! j = Some l' /\ same_frame l l'.
Proof.
  intros Hl. unfold Row.collisionSolver, Row.sweep.
  repeat case_match; eauto with frames. by apply sweepFrom_frame.
Qed.

(** C4. A top-level mapped layer with a resolved override comes out of the
    solver of either engine as the mapper produced it: coords, transform
    and all, whatever its layout role. *)
Theorem solver_keeps_locked_layers (sc : ContainerContext num) tgt layers i l :
  let mappedInstance := map (Instance.mapLayer sc tb st fb 0) layers in
  let mappedRow := map (Row.transformLayer sc tgt st fb) layers in
  (mappedInstance !! i = Some l ->
   is_Some (Instance.getOverride st fb (t_id l)) ->
   Instance.transformLayers sc tb st fb layers 0 !! i = Some l)
  /\ (mappedRow !! i = Some l ->
      is_Some (Row.getOverride (t_id l) fb st) ->
      Row.collisionSolver st fb mappedRow !! i = Some l).
Proof.
  split; intros Hl Hlocked.
  - unfold Instance.transformLayers. by apply physicsEngine_locked.
  - by apply collisionSolver_locked.
Qed.

End SolverFrames.

(** Witness of C4: L is pinned by the strategy; both solvers run (one-row
    distribution, collision sweep) and leave it where the mapper put it. *)
Lemma solver_keeps_locked_layers_witness :
  (exists l, LockCase.mappedInstance !! 1%nat = Some l
             /\ is_Some (Instance.getOverride (Some LockCase.pinL) None (t_id l))
             /\ Instance.transformLayers LockCase.hero (cd_bounds Sample.slot)
                  (Some LockCase.pinL) None LockCase.layers 0 !! 1%nat = Some l)
  /\ (exists l, LockCase.mappedRow !! 1%nat = Some l
                /\ is_Some (Row.getOverride (t_id l) None (Some LockCase.pinL))
                /\ Row.collisionSolver (Some LockCase.pinL) None LockCase.mappedRow
                     !! 1%nat = Some l).
Proof.
  split; eexists; (split; [reflexivity |]); (split; [eexists; reflexivity |]).
  - apply (solver_keeps_locked_layers (cd_bounds Sample.slot) (Some LockCase.pinL) None
             LockCase.hero Sample.slot LockCase.layers 1).
    + reflexivity.
    + eexists; reflexivity.
  - apply (solver_keeps_locked_layers (cd_bounds Sample.slot) (Some LockCase.pinL) None
             LockCase.hero Sample.slot LockCase.layers 1).
    + reflexivity.
    + eexists; reflexivity.
Defined.

(* ================================================================== *)
(** ** Provenance metadata *)
(* ================================================================== *)

Section Provenance.
Context {num : Type} `{JSNumber num}.
Implicit Types (sc : ContainerContext num) (tb : Rect num)
  (tgt : ContainerDefinition num) (st : option (LayoutStrategy num))
  (fb : option (FeedbackStrategy num)).

(** The output tree of [RemapperInstanceRow]'s mapper mirrors the input
    tree: the node at a path is the image of the input node at that path. *)
Lemma row_tlayer_at_map sc tgt st fb path :
  forall i (ls : list (SerializableLayer num)) l,
  layer_at i path ls = Some l ->
  tlayer_at i path (map (Row.transformLayer sc tgt st fb) ls)
  = Some (Row.transformLayer sc tgt st fb l).
Proof.
  induction path as [| j rest IH]; intros i ls l Hl.
  - simpl in *. rewrite list_lookup_fmap.
    destruct (ls !! i); simpl in *; congruence.
  - simpl in *. rewrite list_lookup_fmap.
    destruct (ls !! i) as [l0 |]; [| done]. simpl.
    destruct l0 as [id ty co [cs |] ro an ru]; [| done]. simpl in *.
    by apply IH.
Qed.

(** The same for [RemapperInstance], up to the depth the node is mapped at. *)
Lemma instance_tlayer_at_map sc tb st fb path :
  forall depth i (ls : list (SerializableLayer num)) l,
  layer_at i path ls = Some l ->
  exists depth',
    tlayer_at i path (map (Instance.mapLayer sc tb st fb depth) ls)
    = Some (Instance.mapLayer sc tb st fb depth' l).
Proof.
  induction path as [| j rest IH]; intros depth i ls l Hl.
  - exists depth. simpl in *. rewrite list_lookup_fmap.
    destruct (ls !! i); simpl in *; congruence.
  - simpl in Hl. destruct (ls !! i) as [l0 |] eqn:Hi; [| done].
    destruct l0 as [id ty co [cs |] ro an ru]; [| done]. simpl in Hl.
    destruct (IH (S depth) j cs l Hl) as [depth' Hrest].
    exists depth'. simpl. rewrite list_lookup_fmap, Hi. simpl. exact Hrest.
Qed.

(** A root-level pass that keeps frames keeps the whole tree below the
    roots and the frame of each root. *)
Lemma tlayer_at_frame (store out : list (TransformedLayer num)) i path t :
  (forall j l, store !! j = Some l ->
               exists l', out !! j = Some l' /\ same_frame l l') ->
  tlayer_at i path store = Some t ->
  exists t', tlayer_at i path out = Some t' /\ same_frame t t'.
Proof.
  intros Hframe Ht. destruct path as [| j rest]; simpl in *.
  - destruct (store !! i) as [t0 |] eqn:Hi; [| done]. injection Ht as <-.
    destruct (Hframe i t0 Hi) as (t0' & -> & Hfr). eauto.
  - destruct (store !! i) as [t0 |] eqn:Hi; [| done].
    destruct (Hframe i t0 Hi) as (t0' & -> & Hfr).
    assert (t_children t0' = t_children t0) as ->
      by (unfold same_frame, off_geometry in Hfr; congruence).
    destruct (t_children t0); [| done]. eauto with frames.
Qed.

(** C9, as the code has it. For every layer of the input tree, the layer at
    the same place in the payload of [RemapperInstanceRow] carries the
    layer's own linkedAnchorId and citedRule, override or not; in the
    payload of [RemapperInstance] it carries those of the resolved override,
    and none when no override is resolved. *)
Theorem provenance_by_engine now (ctx : MappingContext num) tb handle tgt fb
    pa pb i path l :
  Instance.RemapperInstance now (Some ctx) (Some tb) handle fb = Some pa ->
  Row.RemapperInstanceRow now (Some ctx) (Some tgt) fb = Some pb ->
  layer_at i path (layers ctx) = Some l ->
  (exists t, tlayer_at i path (p_layers pb) = Some t
             /\ t_id t = l_id l
             /\ t_linkedAnchorId t = l_linkedAnchorId l
             /\ t_citedRule t = l_citedRule l)
  /\ (exists t, tlayer_at i path (p_layers pa) = Some t
                /\ t_id t = l_id l
                /\ t_linkedAnchorId t
                   = Instance.getOverride (aiStrategy ctx) fb (l_id l) ≫= linkedAnchorId
                /\ t_citedRule t
                   = Instance.getOverride (aiStrategy ctx) fb (l_id l) ≫= citedRule).
Proof.
  intros Ha Hb Hl. injection Ha as <-. injection Hb as <-. simpl. split.
  - pose proof (row_tlayer_at_map (container ctx) tgt (aiStrategy ctx) fb path i
                  (layers ctx) l Hl) as Hmap.
    destruct (tlayer_at_frame _
                (Row.collisionSolver (aiStrategy ctx) fb
                   (map (Row.transformLayer (container ctx) tgt (aiStrategy ctx) fb)
                      (layers ctx)))
                i path _ (collisionSolver_frame (aiStrategy ctx) fb _) Hmap)
      as (t & Ht & Hfr).
    exists t. split; [exact Ht |].
    unfold same_frame, off_geometry in Hfr.
    destruct l as [id ty co ch ro an ru]. simpl in *.
    by injection Hfr as <- _ _ _ <- <- _.
  - destruct (instance_tlayer_at_map (container ctx) tb (aiStrategy ctx) fb path 0 i
                (layers ctx) l Hl) as [depth' Hmap].
    destruct (tlayer_at_frame _
                (Instance.transformLayers (container ctx) tb (aiStrategy ctx) fb
                   (layers ctx) 0)
                i path _ (physicsEngine_frame tb (aiStrategy ctx) fb 0 _) Hmap)
      as (t & Ht & Hfr).
    exists t. split; [exact Ht |].
    unfold same_frame, off_geometry in Hfr.
    destruct l as [id ty co ch ro an ru]. simpl in *.
    by injection Hfr as <- _ _ _ <- <- _.
Qed.

End Provenance.

(** Witness of C9: the cited layer inside the group, no override. *)
Lemma provenance_by_engine_witness :
  exists pa pb,
    Sample.runInstance ProvenanceCase.src None = Some pa
    /\ Sample.runRow ProvenanceCase.src None = Some pb
    /\ layer_at 0 [0%nat] (layers ProvenanceCase.src) = Some ProvenanceCase.cited
    /\ (exists t, tlayer_at 0 [0%nat] (p_layers pb) = Some t
                  /\ t_id t = "C"
                  /\ t_linkedAnchorId t = Some "anchor-7"
                  /\ t_citedRule t = Some "rule-3")
    /\ (exists t, tlayer_at 0 [0%nat] (p_layers pa) = Some t
                  /\ t_id t = "C"
                  /\ t_linkedAnchorId t = None
                  /\ t_citedRule t = None).
Proof.
  do 2 eexists. do 3 (split; [reflexivity |]).
  exact (provenance_by_engine 0%float ProvenanceCase.src (cd_bounds Sample.slot)
           (Some "slot-bounds-slot"%string) Sample.slot None _ _ 0 [0%nat]
           ProvenanceCase.cited eq_refl eq_refl eq_refl).
Defined.

(** C9 fails on the code: [RemapperInstance] overwrites the metadata of the
    cited layer, for which no override is resolved, with undefined. *)
Lemma instance_drops_provenance :
  exists p t,
    Sample.runInstance ProvenanceCase.src None = Some p
    /\ layer_at 0 [0%nat] (layers ProvenanceCase.src) = Some ProvenanceCase.cited
    /\ tlayer_at 0 [0%nat] (p_layers p) = Some t
    /\ l_linkedAnchorId ProvenanceCase.cited = Some "anchor-7"
    /\ l_citedRule ProvenanceCase.cited = Some "rule-3"
    /\ t_linkedAnchorId t = None
    /\ t_citedRule t = None.
Proof. do 2 eexists. repeat split; reflexivity. Qed.

(* ================================================================== *)
(** ** The exact number model *)
(* ================================================================== *)

Section ExactNumbers.
Local Open Scope Q_scope.

Lemma exact_ltb_lt (a b : Q) : JSExact.ltb a b = true <-> a < b.
Proof.
  unfold JSExact.ltb. rewrite negb_true_iff, <- not_true_iff_false, Qle_bool_iff.
  split; [apply Qnot_le_lt | apply Qlt_not_le].
Qed.

Lemma exact_ltb_ge (a b : Q) : JSExact.ltb a b = false <-> b <= a.
Proof. unfold JSExact.ltb. by rewrite negb_false_iff, Qle_bool_iff. Qed.

End ExactNumbers.

(* ================================================================== *)
(** ** One-row distribution, in exact arithmetic *)
(* ================================================================== *)

Section ExactDistribution.
Variable tb : Rect Q.
Variable strategy : LayoutStrategy Q.
Variable fb : option (FeedbackStrategy Q).
Local Open Scope Q_scope.

(** C6, as the code has it. Under DISTRIBUTE_HORIZONTAL or GRID, the i-th
    grid candidate, in encounter order, ends with its horizontal centre at
    [targetBounds.x + margin + step * i + step / 2], where
    [margin = 0.05 * W] and [step = (W - 2 * margin) / n]; its y, w, h and
    transform stay as mapped. *)
Theorem distribute_horizontal_centres (store : list (TransformedLayer Q)) i p l :
  str_is (layoutMode strategy) "DISTRIBUTE_HORIZONTAL"
  || str_is (layoutMode strategy) "GRID" = true ->
  let cands := Instance.gridCandidates (Some strategy) fb store in
  let n := inject_Z (Z.of_nat (length cands)) in
  let W := r_w tb in
  let margin := (5 # 100) * W in
  let step := (W - 2 * margin) / n in
  cands !! i = Some p ->
  store !! p = Some l ->
  exists l',
    Instance.physicsEngine tb (Some strategy) fb 0 store !! p = Some l'
    /\ r_x (t_coords l') + r_w (t_coords l') / 2
       == r_x tb + margin + step * inject_Z (Z.of_nat i) + step / 2
    /\ r_y (t_coords l') = r_y (t_coords l)
    /\ r_w (t_coords l') = r_w (t_coords l)
    /\ r_h (t_coords l') = r_h (t_coords l)
    /\ t_transform l' = t_transform l.
Proof.
  intros Hmode cands n W margin step Hi Hp.
  assert (Nat.ltb 0 (length cands) = true) as Hlen.
  { apply Nat.ltb_lt. apply lookup_lt_Some in Hi. lia. }
  unfold Instance.physicsEngine. fold cands. rewrite Hlen, Hmode. simpl.
  unfold Instance.distributeHorizontal, forEach.
  rewrite (forEach_from_at _ cands 0 store i p l (NoDup_filter_refs _ _) Hi Hp).
  eexists. split; [reflexivity |].
  simpl. repeat split; try reflexivity.
  unfold JSExact.of_index. fold cands. fold n.
  set (s := (r_w tb - r_w tb * (5 # 100) * 2) / n).
  assert (s == step) as Hs.
  { unfold s, step, margin, W. apply Qdiv_comp; [ring | reflexivity]. }
  rewrite <- Hs. unfold margin, W. field.
Qed.

End ExactDistribution.

(** Witness of C6: two candidates in a target 400 wide at x = 10; the
    second one is centred at 10 + 20 + 180 + 90 = 300. *)
Lemma distribute_horizontal_centres_witness :
  str_is (layoutMode ExactCase.flow) "DISTRIBUTE_HORIZONTAL"
  || str_is (layoutMode ExactCase.flow) "GRID" = true
  /\ Instance.gridCandidates (Some ExactCase.flow) None ExactCase.store !! 1%nat
     = Some 1%nat
  /\ ExactCase.store !! 1%nat = Some (ExactCase.mapped "N" 30 40)
  /\ exists l',
       Instance.physicsEngine ExactCase.slot (Some ExactCase.flow) None 0
         ExactCase.store !! 1%nat = Some l'
       /\ (r_x (t_coords l') + r_w (t_coords l') / 2 == 300)%Q
       /\ r_y (t_coords l') = 90%Q.
Proof.
  do 3 (split; [reflexivity |]).
  destruct (distribute_horizontal_centres ExactCase.slot ExactCase.flow None
              ExactCase.store 1 1 (ExactCase.mapped "N" 30 40)
              eq_refl eq_refl eq_refl) as (l' & Hl' & Hcentre & Hy & _).
  exists l'. split; [exact Hl' |]. split; [| exact Hy].
  rewrite Hcentre. reflexivity.
Defined.

(** C6 fails on the code as soon as the target does not start at x = 0: in
    the target 400 wide at x = 10 the only candidate is centred at 210,
    not at [margin + step / 2 = 200]. *)
Lemma slot_centre_is_offset_by_target_x :
  exists c,
    Sample.first_coords (Sample.runInstance DistributeCase.src None) = Some c
    /\ PrimFloat.add (r_x c) (PrimFloat.div (r_w c) 2) = 210%float
    /\ slot_centre_spec 400%float 1 0 = 200%float
    /\ PrimFloat.eqb (PrimFloat.add (r_x c) (PrimFloat.div (r_w c) 2))
         (slot_centre_spec 400%float 1 0) = false.
Proof. eexists. repeat split; reflexivity. Qed.

(* ================================================================== *)
(** ** Collision sweep *)
(* ================================================================== *)

Section SortedRefs.
Context {num : Type} `{JSNumber num}.
Implicit Types (store : list (TransformedLayer num)) (refs : list nat).

(** The sort only reorders the references. *)
Lemma sort_insert_perm store a refs :
  Permutation (Row.sort_insert store a refs) (a :: refs).
Proof.
  induction refs as [| b rest IH]; simpl; [done |].
  case_match; [| done].
  rewrite IH. apply perm_swap.
Qed.

Lemma sort_by_x_perm store refs : Permutation (Row.sort_by_x store refs) refs.
Proof.
  induction refs as [| a rest IH]; simpl; [done |].
  unfold Row.sort_by_x in *. simpl. rewrite sort_insert_perm. by constructor.
Qed.

Lemma in_flowItems st fb store i :
  In i (Row.flowItems st fb store) ->
  exists l, store !! i = Some l /\ Row.isFlowItem st fb l = true.
Proof.
  intros Hin. apply in_filter_refs.
  eapply Permutation_in; [apply sort_by_x_perm | exact Hin].
Qed.

Lemma NoDup_flowItems st fb store : List.NoDup (Row.flowItems st fb store).
Proof.
  eapply Permutation_NoDup; [symmetry; apply sort_by_x_perm |].
  apply NoDup_filter_refs.
Qed.

Lemma sweepFrom_other st fb rest : forall prev store j,
  ~ In j rest -> Row.sweepFrom st fb prev rest store !! j = store !! j.
Proof.
  induction rest as [| curr rest IH]; intros prev store j Hj; simpl; [done |].
  rewrite IH by (intros ?; apply Hj; by right).
  apply sweepStep_other. intros ->. apply Hj. by left.
Qed.

End SortedRefs.

Section ExactSweep.
Variable st : option (LayoutStrategy Q).
Variable fb : option (FeedbackStrategy Q).
Implicit Types (store : list (TransformedLayer Q)) (l : TransformedLayer Q).
Local Open Scope Q_scope.

(** The comparator orders the references by ascending mapped x. *)
Lemma sort_insert_sorted store a refs :
  Sorted (fun i j => Row.x_of store i <= Row.x_of store j) refs ->
  Sorted (fun i j => Row.x_of store i <= Row.x_of store j) (Row.sort_insert store a refs).
Proof.
  induction 1 as [| b rest Hsorted IH Hhd]; simpl.
  - repeat constructor.
  - destruct (JSExact.ltb 0 (Row.x_of store a - Row.x_of store b)) eqn:Hcmp.
    + apply exact_ltb_lt in Hcmp.
      constructor; [exact IH |].
      destruct rest as [| c rest']; simpl.
      * constructor. lra.
      * destruct (JSExact.ltb 0 (Row.x_of store a - Row.x_of store c));
          constructor; [by inversion Hhd | lra].
    + apply exact_ltb_ge in Hcmp.
      constructor; [by constructor |]. constructor. lra.
Qed.

Lemma flowItems_sorted store :
  Sorted (fun i j => Row.x_of store i <= Row.x_of store j) (Row.flowItems st fb store).
Proof.
  unfold Row.flowItems, Row.sort_by_x.
  induction (filter_refs (Row.isFlowItem st fb) store) as [| a rest IH]; simpl.
  - constructor.
  - by apply sort_insert_sorted.
Qed.

(** One iteration separates [curr] from [prev] unless [curr] is locked. *)
Lemma sweepStep_separates prev curr store lp l0 :
  store !! prev = Some lp ->
  store !! curr = Some l0 ->
  prev <> curr ->
  Row.getOverride (t_id l0) fb st = None ->
  exists lc, Row.sweepStep st fb prev curr store !! curr = Some lc
             /\ separated lp l0 lc.
Proof.
  intros Hp Hc Hne Hfree. unfold Row.sweepStep. rewrite Hp, Hc, Hfree.
  simpl.
  destruct (JSExact.ltb (r_x (t_coords l0))
              (r_x (t_coords lp) + r_w (t_coords lp) + 10)) eqn:Hlt.
  - apply exact_ltb_lt in Hlt.
    rewrite update_at_same, Hc. simpl. eexists. split; [reflexivity |].
    split.
    + simpl. lra.
    + right. eexists. split; [reflexivity |]. split; [lra | reflexivity].
  - apply exact_ltb_ge in Hlt.
    exists l0. split; [exact Hc |]. split; [exact Hlt | by left].
Qed.

(** The pairs the loop visits stay separated until the loop ends: each
    iteration writes to its own [curr] only. *)
Lemma sweepFrom_separates rest : forall prev store k p c lp l0 lc,
  List.NoDup (prev :: rest) ->
  (prev :: rest) !! k = Some p ->
  (prev :: rest) !! S k = Some c ->
  store !! c = Some l0 ->
  Row.getOverride (t_id l0) fb st = None ->
  Row.sweepFrom st fb prev rest store !! p = Some lp ->
  Row.sweepFrom st fb prev rest store !! c = Some lc ->
  separated lp l0 lc.
Proof.
  induction rest as [| c0 rest IH]; intros prev store k p c lp l0 lc Hnd Hp Hc Hl0 Hfree Hlp Hlc.
  { destruct k; discriminate. }
  apply List.NoDup_cons_iff in Hnd as [Hprev Hnd].
  pose proof Hnd as Hnd'. apply List.NoDup_cons_iff in Hnd' as [Hc0 _].
  simpl in Hlp, Hlc. destruct k as [| k]; simpl in Hp, Hc.
  - injection Hp as <-. injection Hc as <-.
    assert (prev <> c0) as Hne by (intros ->; apply Hprev; by left).
    rewrite sweepFrom_other in Hlp by (intros ?; apply Hprev; by right).
    rewrite sweepStep_other in Hlp by done.
    rewrite sweepFrom_other in Hlc by done.
    destruct (sweepStep_separates prev c0 store lp l0 Hlp Hl0 Hne Hfree)
      as (lc' & Hlc' & Hsep).
    congruence.
  - apply (IH c0 (Row.sweepStep st fb prev c0 store) k p c lp l0 lc); try done.
    rewrite sweepStep_other; [done |].
    intros ->. apply Hc0. apply list_elem_of_In. by eapply list_elem_of_lookup_2.
Qed.

(** C7. With preventOverlap enabled, take two neighbours [p], [c] of the
    flow items sorted by ascending mapped x, [c] not locked. After the
    sweep, [c] starts at least 10 after the end of [p]; [c] is either as
    mapped, or shifted by the exact deficit, on [coords.x] and on
    [transform.offsetX] alike. *)
Theorem sweep_separates_neighbours store k p c l0 :
  Row.preventOverlapEnabled st = true ->
  Row.flowItems st fb store !! k = Some p ->
  Row.flowItems st fb store !! S k = Some c ->
  store !! c = Some l0 ->
  Row.getOverride (t_id l0) fb st = None ->
  exists lp lc,
    Row.collisionSolver st fb store !! p = Some lp
    /\ Row.collisionSolver st fb store !! c = Some lc
    /\ separated lp l0 lc.
Proof.
  intros Hon Hp Hc Hl0 Hfree.
  assert (exists l, store !! p = Some l) as [lp0 Hlp0].
  { destruct (in_flowItems st fb store p) as (l & Hl & _); [| eauto].
    apply list_elem_of_In. by eapply list_elem_of_lookup_2. }
  destruct (collisionSolver_frame st fb store p lp0 Hlp0) as (lp & Hlp & _).
  destruct (collisionSolver_frame st fb store c l0 Hl0) as (lc & Hlc & _).
  exists lp, lc. split; [exact Hlp |]. split; [exact Hlc |].
  unfold Row.collisionSolver in Hlp, Hlc. rewrite Hon in Hlp, Hlc.
  pose proof (NoDup_flowItems st fb store) as Hnd.
  destruct (Row.flowItems st fb store) as [| first rest] eqn:Hflow; [done |].
  simpl in Hlp, Hlc.
  by eapply (sweepFrom_separates rest first store k p c).
Qed.

End ExactSweep.

(** Witness of C7: N spans 30 .. 70 and M starts at 50; the sweep moves M
    to 80, by the deficit 30. *)
Lemma sweep_separates_neighbours_witness :
  Row.preventOverlapEnabled (Some ExactCase.flow) = true
  /\ Row.flowItems (Some ExactCase.flow) None ExactCase.store !! 0%nat = Some 1%nat
  /\ Row.flowItems (Some ExactCase.flow) None ExactCase.store !! 1%nat = Some 0%nat
  /\ ExactCase.store !! 0%nat = Some (ExactCase.mapped "M" 50 40)
  /\ Row.getOverride "M" None (Some ExactCase.flow) = None
  /\ exists lp lc,
       Row.collisionSolver (Some ExactCase.flow) None ExactCase.store !! 1%nat = Some lp
       /\ Row.collisionSolver (Some ExactCase.flow) None ExactCase.store !! 0%nat = Some lc
       /\ separated lp (ExactCase.mapped "M" 50 40) lc.
Proof.
  do 5 (split; [reflexivity |]).
  exact (sweep_separates_neighbours (Some ExactCase.flow) None ExactCase.store
           0 1 0 (ExactCase.mapped "M" 50 40) eq_refl eq_refl eq_refl eq_refl eq_refl).
Defined.

(** The sweep on that store, evaluated. *)
Example sweep_moves_M_to_80 :
  exists lc,
    Row.collisionSolver (Some ExactCase.flow) None ExactCase.store !! 0%nat = Some lc
    /\ (r_x (t_coords lc) == 80)%Q /\ (offsetX (t_transform lc) == 80)%Q.
Proof. eexists. repeat split; reflexivity. Qed.

(** C7 fails on the code by rounding. The separation is a law of exact
    arithmetic; in binary64 the shifted position is
    [x + ((prevEnd + 10) - x)], rounded twice: with P spanning 16.3 .. 106.3
    and C at 47.1, C is not locked and the sweep leaves it one unit in the
    last place below 116.3. *)
Lemma sweep_falls_short_in_binary64 :
  exists p lp lc,
    Row.RemapperInstanceRow 0%float (Some RoundingCase.src) (Some RoundingCase.frame) None
    = Some p
    /\ p_layers p = [lp; lc]
    /\ Row.flowItems (Some RoundingCase.noOverlap) None (p_layers p) = [0%nat; 1%nat]
    /\ Row.getOverride (t_id lc) None (Some RoundingCase.noOverlap) = None
    /\ PrimFloat.ltb (r_x (t_coords lc))
         (PrimFloat.add (PrimFloat.add (r_x (t_coords lp)) (r_w (t_coords lp))) 10)
       = true.
Proof. do 3 eexists. repeat split; reflexivity. Qed.

(* ================================================================== *)
(** ** Wiring: from the registries to a registered payload *)
(* ================================================================== *)

Section Handles.

Lemma substring_all (s : string) : String.substring 0 (String.length s) s = s.
Proof. induction s as [| c s IH]; simpl; [done | by rewrite IH]. Qed.

Lemma prefix_empty (s : string) : String.prefix "" s = true.
Proof. by destruct s. Qed.

(** Stripping the slot prefix undoes prefixing. *)
Lemma stripSlotBounds_prefixed (name : string) :
  Host.stripSlotBounds ("slot-bounds-" +:+ name) = name.
Proof.
  unfold Host.stripSlotBounds, startsWith. cbv [String.app String.append].
  simpl. rewrite prefix_empty, Nat.sub_0_r. apply substring_all.
Qed.

(** X1. A handle made of the slot prefix and a container name names that
    container again: [containerNameFromHandle] undoes the prefixing, for
    every name. *)
Theorem containerNameFromHandle_slot_round_trip (name : string) :
  Instance.containerNameFromHandle (Some ("slot-bounds-" +:+ name)) = Some name.
Proof.
  unfold Instance.containerNameFromHandle, startsWith.
  cbv [String.app String.append]. simpl.
  by rewrite prefix_empty, Nat.sub_0_r, substring_all.
Qed.

Lemma handleId_inj (prefix : string) (i j : nat) :
  Host.handleId prefix i = Host.handleId prefix j -> i = j.
Proof.
  unfold Host.handleId. intros Heq.
  apply String.app_inj in Heq. by apply (inj pretty) in Heq.
Qed.

Lemma handleId_source_target (i j : nat) :
  Host.handleId "source-in-" i <> Host.handleId "target-in-" j.
Proof. unfold Host.handleId. cbv [String.app String.append]. discriminate. Qed.

(** X2. Two channels of a node register under the same output handle only
    if they are the same channel: no channel overwrites the payload of
    another. *)
Theorem output_handles_are_distinct {num : Type} `{JSNumber num}
    nodeId i j edges resolved templates feedbacks now n1' h1 p1 n2' h2 p2 :
  Host.instance_channel nodeId i edges resolved templates feedbacks now
    = Some (n1', h1, p1)
  \/ Host.row_channel nodeId i edges resolved templates feedbacks now
     = Some (n1', h1, p1) ->
  Host.instance_channel nodeId j edges resolved templates feedbacks now
    = Some (n2', h2, p2)
  \/ Host.row_channel nodeId j edges resolved templates feedbacks now
     = Some (n2', h2, p2) ->
  h1 = h2 -> i = j.
Proof.
  unfold Host.instance_channel, Host.row_channel.
  intros H1 H2 Heq.
  assert (h1 = Host.handleId "result-out-" i) as ->.
  { destruct H1 as [H1 | H1];
      apply fmap_Some in H1 as (p & _ & Hk); by injection Hk. }
  assert (h2 = Host.handleId "result-out-" j) as ->.
  { destruct H2 as [H2 | H2];
      apply fmap_Some in H2 as (p & _ & Hk); by injection Hk. }
  by eapply handleId_inj.
Qed.

End Handles.

Section Channels.
Context {num : Type} `{JSNumber num}.
Implicit Types (edges : list Host.Edge)
  (resolved : gmap string (gmap string (MappingContext num)))
  (templates : gmap string (Host.Template num))
  (feedbacks : gmap string (gmap string (FeedbackStrategy num))).


(** The search for an edge skips every edge that does not end in the
    handle searched for. *)
Lemma findEdge_skip nodeId handle edges1 e edges2 :
  ~ (Host.e_target e = nodeId /\ Host.e_targetHandle e = Some handle) ->
  Host.findEdge nodeId handle (edges1 ++ e :: edges2)
  = Host.findEdge nodeId handle (edges1 ++ edges2).
Proof.
  intros Hno. unfold Host.findEdge.
  induction edges1 as [| e1 edges1 IH]; simpl.
  - destruct (String.eqb (Host.e_target e) nodeId) eqn:Ht; simpl; [| done].
    destruct (Host.e_targetHandle e) as [h |] eqn:Hh; simpl; [| done].
    destruct (String.eqb h handle) eqn:Heq; [| done].
    exfalso. apply Hno. apply String.eqb_eq in Ht, Heq. by subst.
  - by rewrite IH.
Qed.

Lemma feeds_one_channel nodeId i j e : feeds nodeId j e -> j <> i -> ~ feeds nodeId i e.
Proof.
  intros [_ Hj] Hne [_ Hi].
  destruct Hj as [Hj | Hj], Hi as [Hi | Hi].
  - assert (Host.handleId "source-in-" j = Host.handleId "source-in-" i) as Heq
      by congruence.
    by apply handleId_inj in Heq.
  - assert (Host.handleId "source-in-" j = Host.handleId "target-in-" i) as Heq
      by congruence.
    by apply handleId_source_target in Heq.
  - assert (Host.handleId "source-in-" i = Host.handleId "target-in-" j) as Heq
      by congruence.
    by apply handleId_source_target in Heq.
  - assert (Host.handleId "target-in-" j = Host.handleId "target-in-" i) as Heq
      by congruence.
    by apply handleId_inj in Heq.
Qed.

(** X4. Channels are wired independently: an edge into another node, or
    into another channel of the same node, can be added anywhere in the
    edge list without changing what a channel registers. *)
Theorem channel_ignores_foreign_edges nodeId index edges1 e edges2
    resolved templates feedbacks now :
  Host.e_target e <> nodeId \/ (exists j, j <> index /\ feeds nodeId j e) ->
  Host.instance_channel nodeId index (edges1 ++ e :: edges2) resolved templates
    feedbacks now
  = Host.instance_channel nodeId index (edges1 ++ edges2) resolved templates
      feedbacks now
  /\ Host.row_channel nodeId index (edges1 ++ e :: edges2) resolved templates
       feedbacks now
     = Host.row_channel nodeId index (edges1 ++ edges2) resolved templates
         feedbacks now.
Proof.
  intros Hforeign.
  assert (~ feeds nodeId index e) as Hno.
  { destruct Hforeign as [Hnode | (j & Hne & Hj)].
    - by intros [? _].
    - by eapply feeds_one_channel. }
  assert (forall prefix, prefix = "source-in-" \/ prefix = "target-in-" ->
            Host.findEdge nodeId (Host.handleId prefix index) (edges1 ++ e :: edges2)
            = Host.findEdge nodeId (Host.handleId prefix index) (edges1 ++ edges2))
    as Hfind.
  { intros prefix Hprefix. apply findEdge_skip. intros [Ht Hh]. apply Hno.
    split; [done |]. destruct Hprefix as [-> | ->]; [by left | by right]. }
  unfold Host.instance_channel, Host.row_channel, Host.sourceContext,
    Host.instance_targetBounds, Host.row_targetData, Host.targetHandle.
  rewrite !(Hfind "source-in-") by (by left).
  rewrite !(Hfind "target-in-") by (by right).
  done.
Qed.

Lemma find_ext_bool {A : Type} (f g : A -> bool) (l : list A) :
  (forall a, f a = g a) -> List.find f l = List.find g l.
Proof.
  intros Hfg. induction l as [| a l IH]; simpl; [done |].
  by rewrite Hfg, IH.
Qed.

(** X5. The two components resolve the same target: when the target edge
    carries a source handle, the bounds [RemapperInstance] works on are
    those of the container [RemapperInstanceRow] works on. *)
Theorem components_resolve_same_target nodeId index edges templates :
  (forall e, Host.findEdge nodeId (Host.handleId "target-in-" index) edges = Some e ->
             is_Some (Host.e_sourceHandle e)) ->
  Host.instance_targetBounds nodeId index edges templates
  = cd_bounds <$> Host.row_targetData nodeId index edges templates.
Proof.
  intros Hhandle. unfold Host.instance_targetBounds, Host.row_targetData.
  destruct (Host.findEdge nodeId (Host.handleId "target-in-" index) edges)
    as [e |] eqn:He; [| done].
  destruct (Hhandle e eq_refl) as [h Hh]. rewrite Hh. simpl.
  destruct (templates !! Host.e_source e) as [template |]; [| done].
  f_equal. apply find_ext_bool. intros c. apply String.eqb_sym.
Qed.

(** X6. Through a slot handle, both components name the target container
    alike: with the target edge leaving handle [slot-bounds-name], [name]
    not empty, both payloads carry [name] as target container. *)
Theorem slot_target_named_alike nodeId index edges resolved templates feedbacks
    now name ka pa kb pb :
  Host.targetHandle nodeId index edges = Some ("slot-bounds-" +:+ name) ->
  name <> "" ->
  Host.instance_channel nodeId index edges resolved templates feedbacks now
    = Some (ka, pa) ->
  Host.row_channel nodeId index edges resolved templates feedbacks now
    = Some (kb, pb) ->
  targetContainer pa = name /\ targetContainer pb = name.
Proof.
  intros Hhandle Hname Ha Hb. split.
  - unfold Host.instance_channel in Ha.
    apply fmap_Some in Ha as (p & Hp & Hk). injection Hk as _ <-.
    unfold Instance.RemapperInstance in Hp.
    destruct (Host.sourceContext _ _ _ _) as [ctx |]; [| done].
    destruct (Host.instance_targetBounds _ _ _ _) as [tb |]; [| done].
    injection Hp as <-. simpl. rewrite Hhandle.
    rewrite containerNameFromHandle_slot_round_trip. unfold str_or.
    destruct (String.eqb name "") eqn:Heq; [| done].
    by apply String.eqb_eq in Heq.
  - unfold Host.row_channel in Hb.
    apply fmap_Some in Hb as (p & Hp & Hk). injection Hk as _ <-.
    unfold Row.RemapperInstanceRow in Hp.
    destruct (Host.sourceContext _ _ _ _) as [ctx |]; [| done].
    destruct (Host.row_targetData _ _ _ _) as [tgt |] eqn:Htgt; [| done].
    injection Hp as <-. simpl.
    unfold Host.row_targetData, Host.targetHandle in *.
    destruct (Host.findEdge nodeId (Host.handleId "target-in-" index) edges)
      as [e |]; [| done].
    simpl in Hhandle. rewrite Hhandle in Htgt. simpl in Htgt.
    destruct (templates !! Host.e_source e) as [template |]; [| done].
    apply find_some in Htgt as [_ Hmatch].
    rewrite stripSlotBounds_prefixed in Hmatch.
    symmetry. by apply String.eqb_eq.
Qed.

End Channels.

Section Node.
Context {other : Type}.

(** The channel count of a node is never zero. *)
Lemma instanceCount_positive (data : option nat) : 0 < Host.instanceCount data.
Proof.
  unfold Host.instanceCount. destruct data as [n |]; [| lia].
  destruct (Nat.eqb n 0) eqn:Hn; [lia |]. apply Nat.eqb_neq in Hn. lia.
Qed.


End Node.

(* ================================================================== *)
(** ** The shape of the output tree *)
(* ================================================================== *)

Section Preservation.
Context {num : Type} `{JSNumber num}.
Variable R : TransformedLayer num -> TransformedLayer num -> Prop.
Hypothesis R_refl : forall a, R a a.
Hypothesis R_trans : forall a b c, R a b -> R b c -> R a c.
Implicit Types (store : list (TransformedLayer num)) (l : TransformedLayer num).

(** A pass that relates every element it writes to the element it read
    relates every element of the array to its former self. *)
Lemma update_at_rel i f store j l :
  (forall a, R a (f a)) ->
  store !! j = Some l ->
  exists l', update_at i f store !! j = Some l' /\ R l l'.
Proof using R_refl.
  intros Hf Hl. destruct (decide (i = j)) as [-> | Hne].
  - rewrite update_at_same, Hl. simpl. eauto.
  - rewrite update_at_other, Hl by done. eauto.
Qed.

Lemma forEach_from_rel f refs : forall idx store j l,
  (forall k a, R a (f k a)) ->
  store !! j = Some l ->
  exists l', forEach_from idx f refs store !! j = Some l' /\ R l l'.
Proof using R_refl R_trans.
  induction refs as [| r refs IH]; intros idx store j l Hf Hl; simpl; [eauto |].
  destruct (update_at_rel r (f idx) store j l (Hf idx) Hl) as (l1 & Hl1 & HR1).
  destruct (IH (S idx) _ j l1 Hf Hl1) as (l2 & Hl2 & HR2). eauto.
Qed.

Lemma physicsEngine_rel tb st fb depth store j l :
  (forall v a, R a (set_x v a)) ->
  (forall v a, R a (set_y v a)) ->
  store !! j = Some l ->
  exists l', Instance.physicsEngine tb st fb depth store !! j = Some l' /\ R l l'.
Proof using R_refl R_trans.
  intros Hx Hy Hl. unfold Instance.physicsEngine.
  destruct depth; [| eauto]. destruct st as [strategy |]; [| eauto].
  repeat case_match; eauto.
  - apply forEach_from_rel; [| done]. intros; apply Hx.
  - apply forEach_from_rel; [| done]. intros; apply Hy.
Qed.

Lemma sweepStep_rel st fb prev curr store j l :
  (forall d a, R a (shifted_by d a)) ->
  store !! j = Some l ->
  exists l', Row.sweepStep st fb prev curr store !! j = Some l' /\ R l l'.
Proof using R_refl.
  intros Hshift Hl. unfold Row.sweepStep. repeat case_match; eauto.
  apply update_at_rel; [| done]. intros a. apply Hshift.
Qed.

Lemma sweepFrom_rel st fb rest : forall prev store j l,
  (forall d a, R a (shifted_by d a)) ->
  store !! j = Some l ->
  exists l', Row.sweepFrom st fb prev rest store !! j = Some l' /\ R l l'.
Proof using R_refl R_trans.
  induction rest as [| curr rest IH]; intros prev store j l Hshift Hl; simpl; [eauto |].
  destruct (sweepStep_rel st fb prev curr store j l Hshift Hl) as (l1 & Hl1 & HR1).
  destruct (IH curr _ j l1 Hshift Hl1) as (l2 & Hl2 & HR2). eauto.
Qed.

Lemma collisionSolver_rel st fb store j l :
  (forall d a, R a (shifted_by d a)) ->
  store !! j = Some l ->
  exists l', Row.collisionSolver st fb store !! j = Some l' /\ R l l'.
Proof using R_refl R_trans.
  intros Hshift Hl. unfold Row.collisionSolver, Row.sweep.
  repeat case_match; eauto. by apply sweepFrom_rel.
Qed.

End Preservation.

Section Lengths.
Context {num : Type} `{JSNumber num}.
Implicit Types (store : list (TransformedLayer num)).

Lemma length_update_at i f store : length (update_at i f store) = length store.
Proof. unfold update_at. apply length_alter. Qed.

Lemma length_forEach_from f refs : forall idx store,
  length (forEach_from idx f refs store) = length store.
Proof.
  induction refs as [| r refs IH]; intros idx store; simpl; [done |].
  by rewrite IH, length_update_at.
Qed.

Lemma length_physicsEngine tb st fb depth store :
  length (Instance.physicsEngine tb st fb depth store) = length store.
Proof.
  unfold Instance.physicsEngine. destruct depth; [| done].
  destruct st as [strategy |]; [| done].
  repeat case_match; try done;
    unfold Instance.distributeHorizontal, Instance.distributeVertical, forEach;
    apply length_forEach_from.
Qed.

Lemma length_sweepFrom st fb rest : forall prev store,
  length (Row.sweepFrom st fb prev rest store) = length store.
Proof.
  induction rest as [| curr rest IH]; intros prev store; simpl; [done |].
  rewrite IH. unfold Row.sweepStep. repeat case_match; try done.
  apply length_update_at.
Qed.

Lemma length_collisionSolver st fb store :
  length (Row.collisionSolver st fb store) = length store.
Proof.
  unfold Row.collisionSolver, Row.sweep. repeat case_match; try done.
  apply length_sweepFrom.
Qed.

(** Below the roots, a root-level pass that keeps frames and the number of
    roots changes nothing. *)
Lemma tlayer_at_below_roots (store out : list (TransformedLayer num)) i j rest :
  length out = length store ->
  (forall k l, store !! k = Some l ->
               exists l', out !! k = Some l' /\ same_frame l l') ->
  tlayer_at i (j :: rest) out = tlayer_at i (j :: rest) store.
Proof.
  intros Hlen Hframe. simpl.
  destruct (store !! i) as [t |] eqn:Hi.
  - destruct (Hframe i t Hi) as (t' & -> & Hfr).
    assert (t_children t' = t_children t) as ->
      by (unfold same_frame, off_geometry in Hfr; congruence).
    done.
  - apply lookup_ge_None in Hi. rewrite <- Hlen in Hi.
    apply lookup_ge_None in Hi. by rewrite Hi.
Qed.

(** Where the input tree has no node, the mapped tree has none. *)
Lemma row_tlayer_at_map_None sc tgt st fb path :
  forall i (ls : list (SerializableLayer num)),
  layer_at i path ls = None ->
  tlayer_at i path (map (Row.transformLayer sc tgt st fb) ls) = None.
Proof.
  induction path as [| j rest IH]; intros i ls Hl; simpl in *;
    rewrite list_lookup_fmap; destruct (ls !! i) as [l0 |]; simpl; try done.
  destruct l0 as [id ty co [cs |] ro an ru]; simpl in *; [| done]. by apply IH.
Qed.

Lemma instance_tlayer_at_map_None sc tb st fb path :
  forall depth i (ls : list (SerializableLayer num)),
  layer_at i path ls = None ->
  tlayer_at i path (map (Instance.mapLayer sc tb st fb depth) ls) = None.
Proof.
  induction path as [| j rest IH]; intros depth i ls Hl; simpl in *;
    rewrite list_lookup_fmap; destruct (ls !! i) as [l0 |]; simpl; try done.
  destruct l0 as [id ty co [cs |] ro an ru]; simpl in *; [| done]. by apply IH.
Qed.

End Lengths.

Section TreeShape.
Context {num : Type} `{JSNumber num}.

(** X8. The payload of [RemapperInstanceRow] mirrors the input tree: as
    many roots; where the input has no node the output has none; where it
    has a layer the output has a node with that layer's id, type, metadata
    and mapped children, and below the roots exactly the node the mapper
    produced. The collision sweep adds, drops and reorders nothing, and
    never reaches a nested layer. *)
Theorem row_payload_mirrors_tree now (ctx : MappingContext num) tgt fb p :
  Row.RemapperInstanceRow now (Some ctx) (Some tgt) fb = Some p ->
  length (p_layers p) = length (layers ctx)
  /\ forall i path,
       match layer_at i path (layers ctx) with
       | None => tlayer_at i path (p_layers p) = None
       | Some l =>
           let mapped := Row.transformLayer (container ctx) tgt (aiStrategy ctx) fb l in
           exists t, tlayer_at i path (p_layers p) = Some t
                     /\ same_frame mapped t
                     /\ (path <> [] -> t = mapped)
       end.
Proof.
  intros Hreg. rewrite (row_payload_layers now ctx tgt fb p Hreg).
  set (st := aiStrategy ctx). set (sc := container ctx).
  set (store := map (Row.transformLayer sc tgt st fb) (layers ctx)).
  assert (length (Row.collisionSolver st fb store) = length (layers ctx)) as Hlen
    by (rewrite length_collisionSolver; unfold store; apply length_map).
  split; [exact Hlen |]. intros i path.
  destruct path as [| j rest].
  - destruct (layer_at i [] (layers ctx)) as [l |] eqn:Hl.
    + pose proof (row_tlayer_at_map sc tgt st fb [] i _ _ Hl) as Hmap.
      destruct (tlayer_at_frame store (Row.collisionSolver st fb store) i [] _
                  (collisionSolver_frame st fb store) Hmap) as (t & Ht & Hfr).
      exists t. repeat split; done.
    + simpl in *. destruct (layers ctx !! i) eqn:Hi; [done |].
      apply lookup_ge_None in Hi. rewrite <- Hlen in Hi.
      apply lookup_ge_None in Hi. by rewrite Hi.
  - rewrite (tlayer_at_below_roots store);
      [| by rewrite length_collisionSolver | apply collisionSolver_frame].
    destruct (layer_at i (j :: rest) (layers ctx)) as [l |] eqn:Hl.
    + eexists. split; [by apply row_tlayer_at_map |]. split; [reflexivity | done].
    + by apply row_tlayer_at_map_None.
Qed.

(** X9. The payload of [RemapperInstance] mirrors the input tree in the
    same way; below the roots its nodes are exactly what the mapper
    produced, the grid solver reaching the roots only. *)
Theorem instance_payload_mirrors_tree now (ctx : MappingContext num) tb handle fb p :
  Instance.RemapperInstance now (Some ctx) (Some tb) handle fb = Some p ->
  length (p_layers p) = length (layers ctx)
  /\ forall i path,
       match layer_at i path (layers ctx) with
       | None => tlayer_at i path (p_layers p) = None
       | Some l =>
           exists depth t,
             let mapped :=
               Instance.mapLayer (container ctx) tb (aiStrategy ctx) fb depth l in
             tlayer_at i path (p_layers p) = Some t
             /\ same_frame mapped t
             /\ (path <> [] -> t = mapped)
       end.
Proof.
  intros Hreg. rewrite (instance_payload_layers now ctx tb handle fb p Hreg).
  set (st := aiStrategy ctx). set (sc := container ctx).
  set (store := map (Instance.mapLayer sc tb st fb 0) (layers ctx)).
  assert (length (Instance.physicsEngine tb st fb 0 store) = length (layers ctx))
    as Hlen by (rewrite length_physicsEngine; unfold store; apply length_map).
  split; [exact Hlen |]. intros i path.
  destruct path as [| j rest].
  - destruct (layer_at i [] (layers ctx)) as [l |] eqn:Hl.
    + destruct (instance_tlayer_at_map sc tb st fb [] 0 i _ _ Hl) as [depth Hmap].
      destruct (tlayer_at_frame store (Instance.physicsEngine tb st fb 0 store) i [] _
                  (physicsEngine_frame tb st fb 0 store) Hmap) as (t & Ht & Hfr).
      exists depth, t. repeat split; done.
    + simpl in *. destruct (layers ctx !! i) eqn:Hi; [done |].
      apply lookup_ge_None in Hi. rewrite <- Hlen in Hi.
      apply lookup_ge_None in Hi. by rewrite Hi.
  - rewrite (tlayer_at_below_roots store);
      [| by rewrite length_physicsEngine | apply physicsEngine_frame].
    destruct (layer_at i (j :: rest) (layers ctx)) as [l |] eqn:Hl.
    + destruct (instance_tlayer_at_map sc tb st fb (j :: rest) 0 i _ _ Hl)
        as [depth Hmap].
      exists depth. eexists. split; [exact Hmap |]. split; [reflexivity | done].
    + by apply instance_tlayer_at_map_None.
Qed.

Lemma transformLayer_anchored sc tgt st fb (l : SerializableLayer num) :
  anchored (Row.transformLayer sc tgt st fb l).
Proof. destruct l as [id ty co ch ro an ru]. unfold anchored. simpl.
  unfold Row.geometry. destruct (Row.getOverride id fb st); simpl; done.
Qed.

Lemma mapLayer_baked sc tb st fb depth (l : SerializableLayer num) :
  baked (Instance.mapLayer sc tb st fb depth l).
Proof. destruct l as [id ty co ch ro an ru]. unfold baked. simpl. done. Qed.

Lemma tlayer_at_root i (ts : list (TransformedLayer num)) :
  tlayer_at i [] ts = ts !! i.
Proof. simpl. by destruct (ts !! i). Qed.

(** A node of the mapped tree is the image of an input layer. *)
Lemma row_tlayer_at_map_inv sc tgt st fb path :
  forall i (ls : list (SerializableLayer num)) t,
  tlayer_at i path (map (Row.transformLayer sc tgt st fb) ls) = Some t ->
  exists l, layer_at i path ls = Some l /\ t = Row.transformLayer sc tgt st fb l.
Proof.
  induction path as [| j rest IH]; intros i ls t Ht; simpl in *;
    rewrite list_lookup_fmap in Ht; destruct (ls !! i) as [l0 |]; simpl in *;
    try done.
  - injection Ht as <-. eauto.
  - destruct l0 as [id ty co [cs |] ro an ru]; simpl in *; [| done]. by apply IH.
Qed.

Lemma instance_tlayer_at_map_inv sc tb st fb path :
  forall depth i (ls : list (SerializableLayer num)) t,
  tlayer_at i path (map (Instance.mapLayer sc tb st fb depth) ls) = Some t ->
  exists depth' l,
    layer_at i path ls = Some l /\ t = Instance.mapLayer sc tb st fb depth' l.
Proof.
  induction path as [| j rest IH]; intros depth i ls t Ht; simpl in *;
    rewrite list_lookup_fmap in Ht; destruct (ls !! i) as [l0 |]; simpl in *;
    try done.
  - injection Ht as <-. eauto.
  - destruct l0 as [id ty co [cs |] ro an ru]; simpl in *; [| done].
    by eapply IH.
Qed.

(** X10. Every node of a payload of [RemapperInstanceRow], at any depth and
    also after the collision sweep has shifted it, has
    [transform.offsetX = coords.x], [transform.offsetY = coords.y] and a
    uniform scale. *)
Theorem row_payload_nodes_anchored now (ctx : MappingContext num) tgt fb p i path t :
  Row.RemapperInstanceRow now (Some ctx) (Some tgt) fb = Some p ->
  tlayer_at i path (p_layers p) = Some t ->
  anchored t.
Proof.
  intros Hreg Ht. rewrite (row_payload_layers now ctx tgt fb p Hreg) in Ht.
  set (st := aiStrategy ctx) in *. set (sc := container ctx) in *.
  set (store := map (Row.transformLayer sc tgt st fb) (layers ctx)) in *.
  destruct path as [| j rest].
  - rewrite tlayer_at_root in Ht.
    destruct (Row.collisionSolver st fb store !! i) as [t' |] eqn:Hout; [| done].
    injection Ht as ->.
    destruct (store !! i) as [t0 |] eqn:Hi.
    + destruct (collisionSolver_rel (fun a b => anchored a -> anchored b)
                  (fun a Ha => Ha) (fun a b c Hab Hbc Ha => Hbc (Hab Ha))
                  st fb store i t0) as (t2 & Ht2 & Hkeep).
      * intros d a (Hx & Hy & Hs). unfold anchored, shifted_by. simpl.
        by rewrite Hx.
      * exact Hi.
      * assert (t2 = t) as -> by congruence. apply Hkeep.
        unfold store in Hi. rewrite list_lookup_fmap in Hi.
        destruct (layers ctx !! i) as [l |]; [| done]. injection Hi as <-.
        apply transformLayer_anchored.
    + apply lookup_ge_None in Hi. rewrite <- (length_collisionSolver st fb) in Hi.
      apply lookup_ge_None in Hi. congruence.
  - rewrite (tlayer_at_below_roots store) in Ht;
      [| apply length_collisionSolver | apply collisionSolver_frame].
    apply row_tlayer_at_map_inv in Ht as (l & _ & ->).
    apply transformLayer_anchored.
Qed.

(** X11. Every node of a payload of [RemapperInstance], at any depth and
    also after the grid solver has moved it, has a transform without
    offset and with a uniform scale: the position lives in [coords] only. *)
Theorem instance_payload_nodes_baked now (ctx : MappingContext num) tb handle fb
    p i path t :
  Instance.RemapperInstance now (Some ctx) (Some tb) handle fb = Some p ->
  tlayer_at i path (p_layers p) = Some t ->
  baked t.
Proof.
  intros Hreg Ht. rewrite (instance_payload_layers now ctx tb handle fb p Hreg) in Ht.
  set (st := aiStrategy ctx) in *. set (sc := container ctx) in *.
  set (store := map (Instance.mapLayer sc tb st fb 0) (layers ctx)) in *.
  destruct path as [| j rest].
  - rewrite tlayer_at_root in Ht.
    destruct (Instance.physicsEngine tb st fb 0 store !! i) as [t' |] eqn:Hout;
      [| done].
    injection Ht as ->.
    destruct (store !! i) as [t0 |] eqn:Hi.
    + destruct (physicsEngine_rel (fun a b => baked a -> baked b)
                  (fun a Ha => Ha) (fun a b c Hab Hbc Ha => Hbc (Hab Ha))
                  tb st fb 0 store i t0) as (t2 & Ht2 & Hkeep); try done.
      assert (t2 = t) as -> by congruence. apply Hkeep.
      unfold store in Hi. rewrite list_lookup_fmap in Hi.
      destruct (layers ctx !! i) as [l |]; [| done]. injection Hi as <-.
      apply mapLayer_baked.
    + apply lookup_ge_None in Hi. rewrite <- (length_physicsEngine tb st fb 0) in Hi.
      apply lookup_ge_None in Hi. congruence.
  - rewrite (tlayer_at_below_roots store) in Ht;
      [| apply length_physicsEngine | apply physicsEngine_frame].
    apply instance_tlayer_at_map_inv in Ht as (depth' & l & _ & ->).
    apply mapLayer_baked.
Qed.

End TreeShape.

(* ================================================================== *)
(** ** Fit and placement, in exact arithmetic *)
(* ================================================================== *)

Section ExactGeometry.
Variable sc : ContainerContext Q.
Variable st : option (LayoutStrategy Q).
Variable fb : option (FeedbackStrategy Q).
Local Open Scope Q_scope.


(** X12. Contain fit of [RemapperInstance]: for a source container of
    positive size, without suggested scale and without individual scale,
    the scaled source is no wider and no higher than the target, and
    touches it on one axis. *)
Theorem instance_contain_fits (tb : Rect Q) (override : option (LayerOverride Q)) :
  0 < r_w (bounds sc) -> 0 < r_h (bounds sc) ->
  if_truthy (st ≫= suggestedScale) = None ->
  if_truthy (override ≫= individualScale) = None ->
  let s := Instance.finalScale sc tb st override in
  r_w (bounds sc) * s <= r_w tb
  /\ r_h (bounds sc) * s <= r_h tb
  /\ (r_w (bounds sc) * s == r_w tb \/ r_h (bounds sc) * s == r_h tb).
Proof.
  intros Hw Hh Hst Hov s. unfold s, Instance.finalScale. rewrite Hov, Hst. simpl.
  set (a := r_w tb / r_w (bounds sc)). set (b := r_h tb / r_h (bounds sc)).
  assert (r_w (bounds sc) * a == r_w tb) as Ha by (unfold a; field; lra).
  assert (r_h (bounds sc) * b == r_h tb) as Hb by (unfold b; field; lra).
  destruct (Q.min_spec a b) as [[Hlt Hmin] | [Hle Hmin]]; rewrite Hmin.
  - split; [lra |]. split; [nra | by left].
  - split; [nra |]. split; [lra | by right].
Qed.

(** X13. Cover fit of [RemapperInstanceRow]: for a source container of
    positive size and without suggested scale, the scaled source is at
    least as wide and as high as the target, and matches it on one axis. *)
Theorem row_cover_fills (tgt : ContainerDefinition Q) :
  0 < r_w (bounds sc) -> 0 < r_h (bounds sc) ->
  if_truthy (st ≫= suggestedScale) = None ->
  let s := Row.baseScale sc tgt st in
  r_w (cd_bounds tgt) <= r_w (bounds sc) * s
  /\ r_h (cd_bounds tgt) <= r_h (bounds sc) * s
  /\ (r_w (bounds sc) * s == r_w (cd_bounds tgt)
      \/ r_h (bounds sc) * s == r_h (cd_bounds tgt)).
Proof.
  intros Hw Hh Hst s. unfold s, Row.baseScale. rewrite Hst. simpl.
  unfold Row.tgtW, Row.tgtH, Row.srcW, Row.srcH.
  set (a := r_w (cd_bounds tgt) / r_w (bounds sc)).
  set (b := r_h (cd_bounds tgt) / r_h (bounds sc)).
  assert (r_w (bounds sc) * a == r_w (cd_bounds tgt)) as Ha by (unfold a; field; lra).
  assert (r_h (bounds sc) * b == r_h (cd_bounds tgt)) as Hb by (unfold b; field; lra).
  destruct (Q.max_spec a b) as [[Hlt Hmax] | [Hle Hmax]]; rewrite Hmax.
  - split; [nra |]. split; [lra | by right].
  - split; [lra |]. split; [nra | by left].
Qed.

(** X14. [RemapperInstance] centres every layer without resolved override
    on the centre of the target, whatever its place in the source. *)
Theorem instance_centres_layer (tb : Rect Q) depth (layer : SerializableLayer Q) :
  sized sc ->
  Instance.getOverride st fb (l_id layer) = None ->
  let c := t_coords (Instance.mapLayer sc tb st fb depth layer) in
  r_x c + r_w c / 2 == r_x tb + r_w tb / 2
  /\ r_y c + r_h c / 2 == r_y tb + r_h tb / 2.
Proof.
  intros _ Hnone. destruct layer as [id ty co ch ro an ru]. simpl in *.
  rewrite Hnone. simpl. split; field.
Qed.

(** X15. [RemapperInstanceRow] keeps the layout of the source up to the
    base scale: between two layers without resolved override, the mapped
    offsets are the source offsets times [baseScale], and so are the
    sizes. *)
Theorem row_keeps_relative_layout (tgt : ContainerDefinition Q)
    (a b : SerializableLayer Q) :
  sized sc ->
  Row.getOverride (l_id a) fb st = None ->
  Row.getOverride (l_id b) fb st = None ->
  let s := Row.baseScale sc tgt st in
  let ca := t_coords (Row.transformLayer sc tgt st fb a) in
  let cb := t_coords (Row.transformLayer sc tgt st fb b) in
  r_x cb - r_x ca == (r_x (l_coords b) - r_x (l_coords a)) * s
  /\ r_y cb - r_y ca == (r_y (l_coords b) - r_y (l_coords a)) * s
  /\ r_w cb == r_w (l_coords b) * s
  /\ r_h cb == r_h (l_coords b) * s.
Proof.
  intros _ Ha Hb.
  destruct a as [ida tya coa cha roa ana rua], b as [idb tyb cob chb rob anb rub].
  simpl in *. rewrite Ha, Hb. simpl. repeat split; ring.
Qed.

(** X16. [RemapperInstanceRow] centres the scaled source in the target: a
    layer without resolved override that fills the source container is
    mapped onto a box around the centre of the target. *)
Theorem row_centres_source_frame (tgt : ContainerDefinition Q)
    (layer : SerializableLayer Q) :
  sized sc ->
  Row.getOverride (l_id layer) fb st = None ->
  l_coords layer = bounds sc ->
  let c := t_coords (Row.transformLayer sc tgt st fb layer) in
  r_x c + r_w c / 2 == r_x (cd_bounds tgt) + r_w (cd_bounds tgt) / 2
  /\ r_y c + r_h c / 2 == r_y (cd_bounds tgt) + r_h (cd_bounds tgt) / 2.
Proof.
  intros _ Hnone Hfill. destruct layer as [id ty co ch ro an ru]. simpl in *.
  rewrite Hnone. subst co. simpl.
  unfold Row.tgtW, Row.tgtH, Row.tgtX, Row.tgtY, Row.srcW, Row.srcH.
  split; field.
Qed.

(** X17. An override of [RemapperInstanceRow] scales a layer about its
    centre: the size is the mapped size times the individual scale (1 when
    absent or falsy), and the centre is the mapped centre moved by the
    override's offsets. *)
Theorem row_override_scales_about_centre (tgt : ContainerDefinition Q)
    (layer : SerializableLayer Q) (o : LayerOverride Q) :
  sized sc ->
  Row.getOverride (l_id layer) fb st = Some o ->
  let c := t_coords (Row.transformLayer sc tgt st fb layer) in
  let g := Row.geometry sc tgt st (l_coords layer) None in
  let k := default 1 (if_truthy (individualScale o)) in
  r_w c == Row.newW g * k
  /\ r_h c == Row.newH g * k
  /\ r_x c + r_w c / 2 == Row.newX g + xOffset o + Row.newW g / 2
  /\ r_y c + r_h c / 2 == Row.newY g + yOffset o + Row.newH g / 2
  /\ scaleX (t_transform (Row.transformLayer sc tgt st fb layer))
     == Row.baseScale sc tgt st * k.
Proof.
  intros _ Hsome. destruct layer as [id ty co ch ro an ru]. simpl in *.
  rewrite Hsome. simpl. repeat split; try reflexivity; field.
Qed.

End ExactGeometry.

(* ================================================================== *)
(** ** The solvers, beyond the claims *)
(* ================================================================== *)

Section GridSlots.
Context {num : Type} `{JSNumber num}.
Variable tb : Rect num.
Variable strategy : LayoutStrategy num.
Variable fb : option (FeedbackStrategy num).
Implicit Types (store : list (TransformedLayer num)).
Local Open Scope js_scope.

(** What the one-row distribution writes to its i-th candidate. *)
Lemma physicsEngine_horizontal_at store i p l :
  str_is (layoutMode strategy) "DISTRIBUTE_HORIZONTAL"
  || str_is (layoutMode strategy) "GRID" = true ->
  Instance.gridCandidates (Some strategy) fb store !! i = Some p ->
  store !! p = Some l ->
  let cands := Instance.gridCandidates (Some strategy) fb store in
  let margin := r_w tb * n005 in
  let step := (r_w tb - margin * n2) / of_index (length cands) in
  Instance.physicsEngine tb (Some strategy) fb 0 store !! p
  = Some (set_x (r_x tb + margin + step * of_index i + step / n2
                 - r_w (t_coords l) / n2) l).
Proof.
  intros Hmode Hi Hp cands margin step.
  assert (Nat.ltb 0 (length cands) = true) as Hlen.
  { apply Nat.ltb_lt. apply lookup_lt_Some in Hi. unfold cands. lia. }
  unfold Instance.physicsEngine. fold cands. rewrite Hlen, Hmode. simpl.
  unfold Instance.distributeHorizontal, forEach.
  by rewrite (forEach_from_at _ cands 0 store i p l (NoDup_filter_refs _ _) Hi Hp).
Qed.

(** What the one-column distribution writes to its i-th candidate. *)
Lemma physicsEngine_vertical_at store i p l :
  layoutMode strategy = Some "DISTRIBUTE_VERTICAL" ->
  Instance.gridCandidates (Some strategy) fb store !! i = Some p ->
  store !! p = Some l ->
  let cands := Instance.gridCandidates (Some strategy) fb store in
  let margin := r_h tb * n005 in
  let step := (r_h tb - margin * n2) / of_index (length cands) in
  Instance.physicsEngine tb (Some strategy) fb 0 store !! p
  = Some (set_y (r_y tb + margin + step * of_index i + step / n2
                 - r_h (t_coords l) / n2) l).
Proof.
  intros Hmode Hi Hp cands margin step.
  assert (Nat.ltb 0 (length cands) = true) as Hlen.
  { apply Nat.ltb_lt. apply lookup_lt_Some in Hi. unfold cands. lia. }
  unfold Instance.physicsEngine. fold cands. rewrite Hlen, Hmode. simpl.
  unfold Instance.distributeVertical, forEach.
  by rewrite (forEach_from_at _ cands 0 store i p l (NoDup_filter_refs _ _) Hi Hp).
Qed.

End GridSlots.

Section ExactSlots.
Variable tb : Rect Q.
Variable strategy : LayoutStrategy Q.
Variable fb : option (FeedbackStrategy Q).
Implicit Types (store : list (TransformedLayer Q)).
Local Open Scope Q_scope.

(** X18. Under DISTRIBUTE_VERTICAL the i-th grid candidate, in encounter
    order, ends with its vertical centre at
    [targetBounds.y + margin + step * i + step / 2], where
    [margin = 0.05 * H] and [step = (H - 2 * margin) / n]; its x, w, h and
    transform stay as mapped (exact arithmetic). *)
Theorem distribute_vertical_centres store i p l :
  layoutMode strategy = Some "DISTRIBUTE_VERTICAL" ->
  let cands := Instance.gridCandidates (Some strategy) fb store in
  let n := inject_Z (Z.of_nat (length cands)) in
  let margin := (5 # 100) * r_h tb in
  let step := (r_h tb - 2 * margin) / n in
  cands !! i = Some p ->
  store !! p = Some l ->
  exists l',
    Instance.physicsEngine tb (Some strategy) fb 0 store !! p = Some l'
    /\ r_y (t_coords l') + r_h (t_coords l') / 2
       == r_y tb + margin + step * inject_Z (Z.of_nat i) + step / 2
    /\ r_x (t_coords l') = r_x (t_coords l)
    /\ r_w (t_coords l') = r_w (t_coords l)
    /\ r_h (t_coords l') = r_h (t_coords l)
    /\ t_transform l' = t_transform l.
Proof.
  intros Hmode cands n margin step Hi Hp.
  rewrite (physicsEngine_vertical_at tb strategy fb store i p l Hmode Hi Hp).
  eexists. split; [reflexivity |]. simpl. repeat split; try reflexivity.
  unfold JSExact.of_index. fold cands. fold n.
  set (s := (r_h tb - r_h tb * (5 # 100) * 2) / n).
  assert (s == step) as Hs.
  { unfold s, step, margin. apply Qdiv_comp; [ring | reflexivity]. }
  rewrite <- Hs. unfold margin. field.
Qed.

(** X19. Under DISTRIBUTE_HORIZONTAL or GRID in a target of width
    [W >= 0], the horizontal centre of every grid candidate lies within the
    margins, between [targetBounds.x + 0.05 * W] and
    [targetBounds.x + 0.95 * W], and the centres of two consecutive
    candidates are one step [0.9 * W / n] apart (exact arithmetic). *)
Theorem distribute_horizontal_slots store i p l :
  str_is (layoutMode strategy) "DISTRIBUTE_HORIZONTAL"
  || str_is (layoutMode strategy) "GRID" = true ->
  0 <= r_w tb ->
  let cands := Instance.gridCandidates (Some strategy) fb store in
  let out := Instance.physicsEngine tb (Some strategy) fb 0 store in
  let centre (t : TransformedLayer Q) := r_x (t_coords t) + r_w (t_coords t) / 2 in
  cands !! i = Some p ->
  store !! p = Some l ->
  exists l',
    out !! p = Some l'
    /\ r_x tb + (5 # 100) * r_w tb <= centre l'
    /\ centre l' <= r_x tb + (95 # 100) * r_w tb
    /\ forall q lq, cands !! S i = Some q -> store !! q = Some lq ->
         exists lq', out !! q = Some lq'
                     /\ centre lq' - centre l'
                        == (90 # 100) * r_w tb / inject_Z (Z.of_nat (length cands)).
Proof.
  intros Hmode HW cands out centre Hi Hp. unfold out.
  set (n := inject_Z (Z.of_nat (length cands))).
  set (k := inject_Z (Z.of_nat i)).
  assert (0 <= k) as Hk.
  { unfold k. rewrite <- (Zle_Qle 0). lia. }
  assert (k + 1 <= n) as Hkn.
  { unfold k, n. apply lookup_lt_Some in Hi.
    rewrite <- (inject_Z_plus _ 1). rewrite <- Zle_Qle. lia. }
  set (s := (r_w tb - r_w tb * (5 # 100) * 2) / n).
  assert (s * n == (90 # 100) * r_w tb) as Hsn by (unfold s; field; lra).
  assert ((90 # 100) * r_w tb / n == s) as Hstep by (unfold s; field; lra).
  assert (0 <= s) as Hs.
  { assert (0 < n) as Hn by lra. nra. }
  assert (0 <= s * k) as Hsk by (apply Qmult_le_0_compat; lra).
  assert (0 <= s * (n - (k + 1))) as Hrest by (apply Qmult_le_0_compat; lra).
  rewrite (physicsEngine_horizontal_at tb strategy fb store i p l Hmode Hi Hp).
  eexists. split; [reflexivity |].
  split; [| split].
  - unfold centre. simpl. unfold JSExact.of_index. fold cands. fold n. fold k.
    fold s. clearbody s k n.
    unfold Qdiv. change (/ 2) with (1 # 2). lra.
  - unfold centre. simpl. unfold JSExact.of_index. fold cands. fold n. fold k.
    fold s. clearbody s k n.
    unfold Qdiv. change (/ 2) with (1 # 2). lra.
  - intros q lq Hq Hlq.
    assert (inject_Z (Z.of_nat (S i)) == k + 1) as HSi.
    { unfold k. rewrite <- (inject_Z_plus _ 1). f_equiv. lia. }
    rewrite (physicsEngine_horizontal_at tb strategy fb store (S i) q lq Hmode Hq Hlq).
    eexists. split; [reflexivity |].
    unfold centre. simpl. unfold JSExact.of_index. fold cands. fold n. fold k.
    fold s. rewrite HSi, Hstep. field.
Qed.

End ExactSlots.

Section SweepMoves.
Variable st : option (LayoutStrategy Q).
Variable fb : option (FeedbackStrategy Q).
Implicit Types (store : list (TransformedLayer Q)) (l : TransformedLayer Q).
Local Open Scope Q_scope.

Lemma moved_right_refl l : moved_right l l.
Proof.
  exists 0. split; [lra |]. split; [ring |]. split; [ring |].
  repeat split; reflexivity.
Qed.

Lemma moved_right_trans a b c : moved_right a b -> moved_right b c -> moved_right a c.
Proof.
  intros (d1 & Hd1 & Hx1 & Ho1 & Hy1 & Hw1 & Hh1 & Hsx1 & Hsy1 & Hoy1 & Hr1 & Hf1)
         (d2 & Hd2 & Hx2 & Ho2 & Hy2 & Hw2 & Hh2 & Hsx2 & Hsy2 & Hoy2 & Hr2 & Hf2).
  exists (d1 + d2). repeat split; try congruence.
  - lra.
  - rewrite Hx2, Hx1. ring.
  - rewrite Ho2, Ho1. ring.
Qed.

Lemma sweepStep_moves_right prev curr store j l :
  store !! j = Some l ->
  exists l', Row.sweepStep st fb prev curr store !! j = Some l' /\ moved_right l l'.
Proof.
  intros Hl. unfold Row.sweepStep.
  destruct (store !! prev) as [p |] eqn:Hp; [| eauto using moved_right_refl].
  destruct (store !! curr) as [c |] eqn:Hc; [| eauto using moved_right_refl].
  destruct (Row.getOverride (t_id c) fb st); [eauto using moved_right_refl |].
  simpl.
  destruct (JSExact.ltb (r_x (t_coords c)) (r_x (t_coords p) + r_w (t_coords p) + 10))
    eqn:Hlt; [| eauto using moved_right_refl].
  apply exact_ltb_lt in Hlt.
  destruct (decide (curr = j)) as [-> | Hne].
  - rewrite update_at_same, Hl. simpl. eexists. split; [reflexivity |].
    assert (c = l) as -> by congruence.
    exists (r_x (t_coords p) + r_w (t_coords p) + 10 - r_x (t_coords l)).
    repeat split; try reflexivity. lra.
  - rewrite update_at_other, Hl by done. eauto using moved_right_refl.
Qed.

Lemma sweepFrom_moves_right rest : forall prev store j l,
  store !! j = Some l ->
  exists l', Row.sweepFrom st fb prev rest store !! j = Some l' /\ moved_right l l'.
Proof.
  induction rest as [| curr rest IH]; intros prev store j l Hl; simpl.
  - eauto using moved_right_refl.
  - destruct (sweepStep_moves_right prev curr store j l Hl) as (l1 & Hl1 & Hm1).
    destruct (IH curr _ j l1 Hl1) as (l2 & Hl2 & Hm2).
    eauto using moved_right_trans.
Qed.

(** X20. The collision sweep only ever moves a layer to the right, by one
    and the same amount on [coords.x] and [transform.offsetX], and changes
    nothing else of it; a layer that is no flow item, and the leftmost
    flow item, are not moved at all (exact arithmetic). *)
Theorem sweep_only_moves_right store j l :
  store !! j = Some l ->
  exists l',
    Row.collisionSolver st fb store !! j = Some l'
    /\ moved_right l l'
    /\ (~ In j (Row.flowItems st fb store)
        \/ head (Row.flowItems st fb store) = Some j -> l' = l).
Proof.
  intros Hl. unfold Row.collisionSolver.
  destruct (Row.preventOverlapEnabled st);
    [| exists l; eauto using moved_right_refl].
  pose proof (NoDup_flowItems st fb store) as Hnd.
  unfold Row.sweep.
  destruct (Row.flowItems st fb store) as [| first rest];
    [exists l; eauto using moved_right_refl |].
  destruct (sweepFrom_moves_right rest first store j l Hl) as (l' & Hl' & Hm).
  exists l'. split; [exact Hl' |]. split; [exact Hm |].
  apply List.NoDup_cons_iff in Hnd as [Hfirst _].
  intros Hstill.
  assert (~ In j rest) as Hrest.
  { destruct Hstill as [Hno | Hhead].
    - intros Hin. apply Hno. by right.
    - simpl in Hhead. by injection Hhead as <-. }
  rewrite sweepFrom_other in Hl' by done. congruence.
Qed.

(** X21. The sweep visits each flow item once, in ascending order of
    mapped x: the sorted references are a rearrangement without repetition
    of the roots that pass the filter (role 'flow', or no role and a type
    other than 'group') (exact arithmetic). *)
Theorem flow_items_sorted_once store :
  Permutation (Row.flowItems st fb store)
              (filter_refs (Row.isFlowItem st fb) store)
  /\ List.NoDup (Row.flowItems st fb store)
  /\ Sorted (fun i j => Row.x_of store i <= Row.x_of store j)
            (Row.flowItems st fb store)
  /\ forall i, In i (Row.flowItems st fb store)
               <-> exists l, store !! i = Some l /\ Row.isFlowItem st fb l = true.
Proof.
  split; [apply sort_by_x_perm |]. split; [apply NoDup_flowItems |].
  split; [apply flowItems_sorted |].
  intros i. rewrite <- in_filter_refs. split; intros Hin.
  - eapply Permutation_in; [apply sort_by_x_perm | exact Hin].
  - eapply Permutation_in; [symmetry; apply sort_by_x_perm | exact Hin].
Qed.

End SweepMoves.

Section Resolved.
Context {num : Type} `{JSNumber num}.
Local Open Scope js_scope.

Lemma find_override_layerId id (os : list (LayerOverride num)) o :
  find_override id os = Some o -> layerId o = id.
Proof.
  unfold find_override. intros Hfind. apply find_some in Hfind as [_ Heq].
  by apply String.eqb_eq.
Qed.

(** X22. Whatever either resolver returns for a layer is an override
    written for that layer: its [layerId] is the id asked for. *)
Theorem resolved_override_targets_layer st fb id (o : LayerOverride num) :
  Instance.getOverride st fb id = Some o \/ Row.getOverride id fb st = Some o ->
  layerId o = id.
Proof.
  intros [Ho | Ho].
  - by eapply find_override_layerId.
  - unfold Row.getOverride in Ho.
    destruct (fb ≫= fb_overrides) as [fos |]; simpl in Ho.
    + destruct (find_override id fos) as [m |] eqn:Hm.
      * injection Ho as <-. by eapply find_override_layerId.
      * destruct (st ≫= st_overrides) as [sos |]; [| done].
        by eapply find_override_layerId.
    + destruct (st ≫= st_overrides) as [sos |]; [| done].
      by eapply find_override_layerId.
Qed.

(** X23. In the payload of [RemapperInstance] a root layer with a resolved
    override sits at the target origin plus the override's offsets,
    whatever its place in the source, the scale and the layout mode; it
    carries the override's rotation (0 when absent or falsy) and layout
    role. *)
Theorem instance_locked_root_position now (ctx : MappingContext num) tb handle fb
    p i l o :
  Instance.RemapperInstance now (Some ctx) (Some tb) handle fb = Some p ->
  layers ctx !! i = Some l ->
  Instance.getOverride (aiStrategy ctx) fb (l_id l) = Some o ->
  exists t,
    p_layers p !! i = Some t
    /\ t_id t = l_id l
    /\ r_x (t_coords t) = r_x tb + xOffset o
    /\ r_y (t_coords t) = r_y tb + yOffset o
    /\ tr_rotation (t_transform t) = default n0 (if_truthy (rotation o))
    /\ t_layoutRole t = layoutRole o.
Proof.
  intros Hreg Hl Ho. rewrite (instance_payload_layers now ctx tb handle fb p Hreg).
  eexists. split.
  - apply physicsEngine_locked.
    + rewrite list_lookup_fmap, Hl. reflexivity.
    + destruct l as [id ty co ch ro an ru]. simpl in *. by rewrite Ho.
  - destruct l as [id ty co ch ro an ru]. simpl in *. rewrite Ho. simpl.
    repeat split; reflexivity.
Qed.

End Resolved.

(* ================================================================== *)
(** ** Overrides for layers that are not there *)
(* ================================================================== *)

Section UnknownTarget.
Context {num : Type} `{JSNumber num}.
Implicit Types (store : list (TransformedLayer num)) (l : SerializableLayer num)
  (fb : option (FeedbackStrategy num)) (st : option (LayoutStrategy num)).

Lemma find_override_skip id (os1 : list (LayerOverride num)) o os2 :
  layerId o <> id ->
  find_override id (os1 ++ o :: os2) = find_override id (os1 ++ os2).
Proof.
  intros Hne. unfold find_override.
  induction os1 as [| o1 os1 IH]; simpl.
  - destruct (String.eqb (layerId o) id) eqn:Heq; [| done].
    by apply String.eqb_eq in Heq.
  - by rewrite IH.
Qed.

Lemma filter_refs_ext (p q : TransformedLayer num -> bool) store :
  (forall j t, store !! j = Some t -> p t = q t) ->
  filter_refs p store = filter_refs q store.
Proof.
  intros Hpq. unfold filter_refs. apply List.filter_ext_in. intros j _.
  destruct (store !! j) as [t |] eqn:Hj; [by apply (Hpq j) | done].
Qed.

(** The mapper of [RemapperInstanceRow] depends on the feedback through
    the overrides it resolves for the ids of the tree only. *)
Lemma row_transformLayer_ext sc tgt st fb fb' l :
  (forall id, In id (layer_ids l) ->
              Row.getOverride id fb st = Row.getOverride id fb' st) ->
  Row.transformLayer sc tgt st fb l = Row.transformLayer sc tgt st fb' l.
Proof.
  revert l. apply (layer_tree_ind
    (fun l => (forall id, In id (layer_ids l) ->
                          Row.getOverride id fb st = Row.getOverride id fb' st) ->
              Row.transformLayer sc tgt st fb l = Row.transformLayer sc tgt st fb' l)).
  intros id ty co ch ro an ru IHch Hids. simpl.
  rewrite (Hids id) by (by left). f_equal.
  destruct ch as [cs |]; [| done]. f_equal.
  simpl in Hids.
  assert (forall id', In id' (concat (map layer_ids cs)) ->
                      Row.getOverride id' fb st = Row.getOverride id' fb' st) as Hsub
    by (intros id' Hin; apply Hids; by right).
  clear Hids. induction IHch as [| c rest Hc Hrest IH]; simpl; [done |].
  simpl in Hsub. f_equal.
  - apply Hc. intros id' Hin. apply Hsub. apply in_or_app. by left.
  - apply IH. intros id' Hin. apply Hsub. apply in_or_app. by right.
Qed.

Lemma instance_mapLayer_ext sc tb st fb fb' l : forall depth,
  (forall id, In id (layer_ids l) ->
              Instance.getOverride st fb id = Instance.getOverride st fb' id) ->
  Instance.mapLayer sc tb st fb depth l = Instance.mapLayer sc tb st fb' depth l.
Proof.
  revert l. apply (layer_tree_ind
    (fun l => forall depth,
       (forall id, In id (layer_ids l) ->
                   Instance.getOverride st fb id = Instance.getOverride st fb' id) ->
       Instance.mapLayer sc tb st fb depth l = Instance.mapLayer sc tb st fb' depth l)).
  intros id ty co ch ro an ru IHch depth Hids. simpl.
  rewrite (Hids id) by (by left). f_equal.
  destruct ch as [cs |]; [| done]. f_equal.
  simpl in Hids.
  assert (forall id', In id' (concat (map layer_ids cs)) ->
                      Instance.getOverride st fb id' = Instance.getOverride st fb' id')
    as Hsub by (intros id' Hin; apply Hids; by right).
  clear Hids. induction IHch as [| c rest Hc Hrest IH]; simpl; [done |].
  simpl in Hsub. f_equal.
  - apply Hc. intros id' Hin. apply Hsub. apply in_or_app. by left.
  - apply IH. intros id' Hin. apply Hsub. apply in_or_app. by right.
Qed.

Lemma sweepStep_ext st fb fb' prev curr store :
  (forall j t, store !! j = Some t ->
               Row.getOverride (t_id t) fb st = Row.getOverride (t_id t) fb' st) ->
  Row.sweepStep st fb prev curr store = Row.sweepStep st fb' prev curr store.
Proof.
  intros Hsame. unfold Row.sweepStep.
  destruct (store !! prev) as [p |]; [| done].
  destruct (store !! curr) as [c |] eqn:Hc; [| done].
  by rewrite (Hsame curr c Hc).
Qed.

Lemma sweepFrom_ext st fb fb' rest : forall prev store,
  (forall j t, store !! j = Some t ->
               Row.getOverride (t_id t) fb st = Row.getOverride (t_id t) fb' st) ->
  Row.sweepFrom st fb prev rest store = Row.sweepFrom st fb' prev rest store.
Proof.
  induction rest as [| curr rest IH]; intros prev store Hsame; simpl; [done |].
  rewrite <- (sweepStep_ext st fb fb' prev curr store Hsame).
  apply IH. intros j t Hj.
  destruct (store !! j) as [t0 |] eqn:Hj0.
  - destruct (sweepStep_frame st fb prev curr store j t0 Hj0) as (t1 & Ht1 & Hfr).
    assert (t1 = t) as -> by congruence.
    assert (t_id t = t_id t0) as ->
      by (unfold same_frame, off_geometry in Hfr; congruence).
    by apply (Hsame j).
  - apply lookup_ge_None in Hj0.
    assert (length (Row.sweepStep st fb prev curr store) = length store) as Hlen.
    { unfold Row.sweepStep. repeat case_match; try done. apply length_update_at. }
    rewrite <- Hlen in Hj0. apply lookup_ge_None in Hj0. congruence.
Qed.

Lemma collisionSolver_ext st fb fb' store :
  (forall j t, store !! j = Some t ->
               Row.getOverride (t_id t) fb st = Row.getOverride (t_id t) fb' st) ->
  Row.collisionSolver st fb store = Row.collisionSolver st fb' store.
Proof.
  intros Hsame. unfold Row.collisionSolver, Row.flowItems.
  destruct (Row.preventOverlapEnabled st); [| done].
  rewrite (filter_refs_ext (Row.isFlowItem st fb) (Row.isFlowItem st fb') store).
  - unfold Row.sweep. case_match; [done |]. by apply sweepFrom_ext.
  - intros j t Hj. unfold Row.isFlowItem. by rewrite (Hsame j t Hj).
Qed.

Lemma physicsEngine_ext tb st fb fb' depth store :
  (forall j t, store !! j = Some t ->
               Instance.getOverride st fb (t_id t) = Instance.getOverride st fb' (t_id t)) ->
  Instance.physicsEngine tb st fb depth store
  = Instance.physicsEngine tb st fb' depth store.
Proof.
  intros Hsame. unfold Instance.physicsEngine, Instance.gridCandidates.
  rewrite (filter_refs_ext (Instance.isGridCandidate st fb)
             (Instance.isGridCandidate st fb') store); [done |].
  intros j t Hj. unfold Instance.isGridCandidate. by rewrite (Hsame j t Hj).
Qed.

Lemma mapped_root_ids (f : SerializableLayer num -> TransformedLayer num)
    (ls : list (SerializableLayer num)) j t :
  (forall l, t_id (f l) = l_id l) ->
  map f ls !! j = Some t ->
  exists l, In l ls /\ t_id t = l_id l.
Proof.
  intros Hid Hj. rewrite list_lookup_fmap in Hj.
  destruct (ls !! j) as [l |] eqn:Hl; [| done]. injection Hj as <-.
  exists l. split; [| apply Hid].
  apply list_elem_of_In. by eapply list_elem_of_lookup_2.
Qed.

(** X24. An override for a layer that is not in the tree is never matched
    and changes nothing: with or without it in the feedback, at any place
    of the list, both components register the same payload. *)
Theorem unknown_override_target_is_ignored now (ctx : MappingContext num) tb handle
    tgt (fb : FeedbackStrategy num) os1 o os2 :
  (forall l, In l (layers ctx) -> ~ In (layerId o) (layer_ids l)) ->
  Instance.RemapperInstance now (Some ctx) (Some tb) handle
    (Some (with_overrides fb (os1 ++ o :: os2)))
  = Instance.RemapperInstance now (Some ctx) (Some tb) handle
      (Some (with_overrides fb (os1 ++ os2)))
  /\ Row.RemapperInstanceRow now (Some ctx) (Some tgt)
       (Some (with_overrides fb (os1 ++ o :: os2)))
     = Row.RemapperInstanceRow now (Some ctx) (Some tgt)
         (Some (with_overrides fb (os1 ++ os2))).
Proof.
  intros Habsent.
  set (fb1 := Some (with_overrides fb (os1 ++ o :: os2))).
  set (fb2 := Some (with_overrides fb (os1 ++ os2))).
  set (st := aiStrategy ctx).
  assert (forall id, id <> layerId o ->
            Instance.getOverride st fb1 id = Instance.getOverride st fb2 id) as HA.
  { intros id Hne. unfold Instance.getOverride, Instance.overrides. simpl.
    by apply find_override_skip. }
  assert (forall id, id <> layerId o ->
            Row.getOverride id fb1 st = Row.getOverride id fb2 st) as HB.
  { intros id Hne. unfold Row.getOverride. simpl.
    by rewrite find_override_skip. }
  assert (forall l id, In l (layers ctx) -> In id (layer_ids l) -> id <> layerId o)
    as Hids.
  { intros l id Hl Hid ->. by apply (Habsent l). }
  assert (forall l, In l (layers ctx) -> l_id l <> layerId o) as Hroots.
  { intros l Hl. apply (Hids l); [done |]. destruct l. simpl. by left. }
  split.
  - unfold Instance.RemapperInstance. f_equal. f_equal.
    unfold Instance.transformLayers. fold st. fold fb1. fold fb2.
    assert (map (Instance.mapLayer (container ctx) tb st fb1 0) (layers ctx)
            = map (Instance.mapLayer (container ctx) tb st fb2 0) (layers ctx)) as ->.
    { apply map_ext_in. intros l Hl. apply instance_mapLayer_ext.
      intros id Hid. apply HA. by apply (Hids l). }
    apply physicsEngine_ext. intros j t Hj.
    apply (mapped_root_ids _ _ j t) in Hj as (l & Hl & ->).
    + apply HA. by apply Hroots.
    + intros l. by destruct l.
  - unfold Row.RemapperInstanceRow. f_equal. f_equal. fold st. fold fb1. fold fb2.
    assert (map (Row.transformLayer (container ctx) tgt st fb1) (layers ctx)
            = map (Row.transformLayer (container ctx) tgt st fb2) (layers ctx)) as ->.
    { apply map_ext_in. intros l Hl. apply row_transformLayer_ext.
      intros id Hid. apply HB. by apply (Hids l). }
    apply collisionSolver_ext. intros j t Hj.
    apply (mapped_root_ids _ _ j t) in Hj as (l & Hl & ->).
    + apply HB. by apply Hroots.
    + intros l. by destruct l.
Qed.

End UnknownTarget.

(* ================================================================== *)
(** ** The properties above, on concrete inputs *)
(* ================================================================== *)

(** Witness of X2: channel 0 of the wired node. *)
Lemma output_handles_are_distinct_witness :
  exists n h p,
    Host.row_channel "remap" 0 WiringCase.edges WiringCase.resolvedRegistry
      WiringCase.templateRegistry WiringCase.feedbackRegistry 0%float = Some (n, h, p)
    /\ h = "result-out-0" /\ 0%nat = 0%nat.
Proof.
  do 3 eexists. split; [reflexivity |]. split; [reflexivity |].
  eapply (output_handles_are_distinct "remap" 0 0 WiringCase.edges
            WiringCase.resolvedRegistry WiringCase.templateRegistry
            WiringCase.feedbackRegistry 0%float).
  - right. reflexivity.
  - right. reflexivity.
  - reflexivity.
Defined.

(** Witness of X4: an edge into channel 1 between the two edges of
    channel 0. *)
Lemma channel_ignores_foreign_edges_witness :
  (exists j, j <> 0%nat /\ feeds "remap" j WiringCase.otherChannel)
  /\ Host.row_channel "remap" 0
       ([WiringCase.sourceEdge] ++ WiringCase.otherChannel :: [WiringCase.targetEdge])
       WiringCase.resolvedRegistry WiringCase.templateRegistry
       WiringCase.feedbackRegistry 0%float
     = Host.row_channel "remap" 0 ([WiringCase.sourceEdge] ++ [WiringCase.targetEdge])
         WiringCase.resolvedRegistry WiringCase.templateRegistry
         WiringCase.feedbackRegistry 0%float.
Proof.
  assert (exists j, j <> 0%nat /\ feeds "remap" j WiringCase.otherChannel) as Hfeeds.
  { exists 1%nat. split; [lia |]. split; [reflexivity | left; reflexivity]. }
  split; [exact Hfeeds |].
  apply (channel_ignores_foreign_edges "remap" 0 [WiringCase.sourceEdge]
           WiringCase.otherChannel [WiringCase.targetEdge]
           WiringCase.resolvedRegistry WiringCase.templateRegistry
           WiringCase.feedbackRegistry 0%float).
  right. exact Hfeeds.
Defined.

(** Witness of X5: the slot of the wired template. *)
Lemma components_resolve_same_target_witness :
  Host.findEdge "remap" (Host.handleId "target-in-" 0) WiringCase.edges
  = Some WiringCase.targetEdge
  /\ is_Some (Host.e_sourceHandle WiringCase.targetEdge)
  /\ Host.instance_targetBounds "remap" 0 WiringCase.edges WiringCase.templateRegistry
     = cd_bounds <$> Host.row_targetData "remap" 0 WiringCase.edges
                       WiringCase.templateRegistry.
Proof.
  split; [reflexivity |]. split; [eexists; reflexivity |].
  apply (components_resolve_same_target "remap" 0 WiringCase.edges
           WiringCase.templateRegistry).
  intros e He. injection He as <-. eexists. reflexivity.
Defined.

(** Witness of X6: the handle [slot-bounds-slot]. *)
Lemma slot_target_named_alike_witness :
  exists ka pa kb pb,
    Host.targetHandle "remap" 0 WiringCase.edges = Some ("slot-bounds-" +:+ "slot")
    /\ "slot" <> ""
    /\ Host.instance_channel "remap" 0 WiringCase.edges WiringCase.resolvedRegistry
         WiringCase.templateRegistry WiringCase.feedbackRegistry 0%float
       = Some (ka, pa)
    /\ Host.row_channel "remap" 0 WiringCase.edges WiringCase.resolvedRegistry
         WiringCase.templateRegistry WiringCase.feedbackRegistry 0%float
       = Some (kb, pb)
    /\ targetContainer pa = "slot" /\ targetContainer pb = "slot".
Proof.
  do 4 eexists. split; [reflexivity |]. split; [discriminate |].
  split; [reflexivity |]. split; [reflexivity |].
  eapply (slot_target_named_alike "remap" 0 WiringCase.edges
            WiringCase.resolvedRegistry WiringCase.templateRegistry
            WiringCase.feedbackRegistry 0%float "slot").
  - reflexivity.
  - discriminate.
  - reflexivity.
  - reflexivity.
Defined.



(** Witness of X8: the group with one cited child. *)
Lemma row_payload_mirrors_tree_witness :
  exists p,
    Sample.runRow ProvenanceCase.src None = Some p
    /\ length (p_layers p) = 1%nat
    /\ (exists t, tlayer_at 0 [0%nat] (p_layers p) = Some t /\ t_id t = "C")
    /\ tlayer_at 0 [1%nat] (p_layers p) = None.
Proof.
  eexists. split; [reflexivity |].
  destruct (row_payload_mirrors_tree 0%float ProvenanceCase.src Sample.slot None _
              eq_refl) as [Hlen Hmirror].
  split; [exact Hlen |]. split.
  - destruct (Hmirror 0%nat [0%nat]) as (t & Ht & _ & Hmapped).
    exists t. split; [exact Ht |]. rewrite Hmapped by discriminate. reflexivity.
  - exact (Hmirror 0%nat [1%nat]).
Defined.

(** Witness of X9: the same tree through [RemapperInstance]. *)
Lemma instance_payload_mirrors_tree_witness :
  exists p,
    Sample.runInstance ProvenanceCase.src None = Some p
    /\ length (p_layers p) = 1%nat
    /\ tlayer_at 0 [1%nat] (p_layers p) = None.
Proof.
  eexists. split; [reflexivity |].
  destruct (instance_payload_mirrors_tree 0%float ProvenanceCase.src
              (cd_bounds Sample.slot) (Some "slot-bounds-slot") None _ eq_refl)
    as [Hlen Hmirror].
  split; [exact Hlen |]. exact (Hmirror 0%nat [1%nat]).
Defined.

(** Witness of X10: M after the sweep has shifted it. *)
Lemma row_payload_nodes_anchored_witness :
  exists p t,
    Sample.runRow GhostCase.pinned None = Some p
    /\ tlayer_at 0 [] (p_layers p) = Some t
    /\ r_x (t_coords t) = 250%float
    /\ anchored t.
Proof.
  do 2 eexists. split; [reflexivity |]. split; [reflexivity |].
  split; [reflexivity |].
  exact (row_payload_nodes_anchored 0%float GhostCase.pinned Sample.slot None _
           0 [] _ eq_refl eq_refl).
Defined.

(** Witness of X11: M after the one-row distribution has moved it. *)
Lemma instance_payload_nodes_baked_witness :
  exists p t,
    Sample.runInstance GhostCase.pinned None = Some p
    /\ tlayer_at 0 [] (p_layers p) = Some t
    /\ r_x (t_coords t) = 100%float
    /\ baked t.
Proof.
  do 2 eexists. split; [reflexivity |]. split; [reflexivity |].
  split; [reflexivity |].
  exact (instance_payload_nodes_baked 0%float GhostCase.pinned (cd_bounds Sample.slot)
           (Some "slot-bounds-slot") None _ 0 [] _ eq_refl eq_refl).
Defined.

(** Witness of X12: 100 x 100 into 400 x 200 by contain, scale 2. *)
Lemma instance_contain_fits_witness :
  (0 < r_w (bounds ExactMapping.hero))%Q
  /\ (0 < r_h (bounds ExactMapping.hero))%Q
  /\ (let s := Instance.finalScale ExactMapping.hero ExactCase.slot None None in
      (r_w (bounds ExactMapping.hero) * s <= 400)%Q
      /\ (r_h (bounds ExactMapping.hero) * s <= 200)%Q
      /\ ((r_w (bounds ExactMapping.hero) * s == 400)%Q
          \/ (r_h (bounds ExactMapping.hero) * s == 200)%Q)).
Proof.
  split; [reflexivity |]. split; [reflexivity |].
  exact (instance_contain_fits ExactMapping.hero None ExactCase.slot None
           eq_refl eq_refl eq_refl eq_refl).
Defined.

(** Witness of X13: 100 x 100 into 400 x 200 by cover, scale 4. *)
Lemma row_cover_fills_witness :
  (0 < r_w (bounds ExactMapping.hero))%Q
  /\ (0 < r_h (bounds ExactMapping.hero))%Q
  /\ (let s := Row.baseScale ExactMapping.hero ExactMapping.slot None in
      (400 <= r_w (bounds ExactMapping.hero) * s)%Q
      /\ (200 <= r_h (bounds ExactMapping.hero) * s)%Q
      /\ ((r_w (bounds ExactMapping.hero) * s == 400)%Q
          \/ (r_h (bounds ExactMapping.hero) * s == 200)%Q)).
Proof.
  split; [reflexivity |]. split; [reflexivity |].
  exact (row_cover_fills ExactMapping.hero None ExactMapping.slot
           eq_refl eq_refl eq_refl).
Defined.

Lemma hero_sized : sized ExactMapping.hero.
Proof. split; intros Hzero; discriminate Hzero. Defined.

(** Witness of X14: a layer in a corner of the source ends around the
    centre (210, 110) of the target. *)
Lemma instance_centres_layer_witness :
  sized ExactMapping.hero
  /\ Instance.getOverride (num := Q) None None "K" = None
  /\ (let c := t_coords (Instance.mapLayer ExactMapping.hero ExactCase.slot None None 0
                           (ExactMapping.layer "K" 80 80 20 20)) in
      (r_x c + r_w c / 2 == 210)%Q /\ (r_y c + r_h c / 2 == 110)%Q).
Proof.
  split; [exact hero_sized |]. split; [reflexivity |].
  destruct (instance_centres_layer ExactMapping.hero None None ExactCase.slot 0
              (ExactMapping.layer "K" 80 80 20 20) hero_sized eq_refl) as [Hx Hy].
  cbv zeta in *. split.
  - rewrite Hx. reflexivity.
  - rewrite Hy. reflexivity.
Defined.

(** Witness of X15: two layers 30 apart end 120 apart under scale 4. *)
Lemma row_keeps_relative_layout_witness :
  sized ExactMapping.hero
  /\ Row.getOverride (num := Q) "A" None None = None
  /\ Row.getOverride (num := Q) "B" None None = None
  /\ (let ca := t_coords (Row.transformLayer ExactMapping.hero ExactMapping.slot None None
                            (ExactMapping.layer "A" 10 20 20 20)) in
      let cb := t_coords (Row.transformLayer ExactMapping.hero ExactMapping.slot None None
                            (ExactMapping.layer "B" 40 20 20 20)) in
      (r_x cb - r_x ca == 120)%Q /\ (r_w cb == 80)%Q).
Proof.
  split; [exact hero_sized |]. split; [reflexivity |]. split; [reflexivity |].
  destruct (row_keeps_relative_layout ExactMapping.hero None None ExactMapping.slot
              (ExactMapping.layer "A" 10 20 20 20) (ExactMapping.layer "B" 40 20 20 20)
              hero_sized eq_refl eq_refl) as (Hx & _ & Hw & _).
  cbv zeta in *. split.
  - rewrite Hx. reflexivity.
  - rewrite Hw. reflexivity.
Defined.

(** Witness of X16: a background that fills the source. *)
Lemma row_centres_source_frame_witness :
  sized ExactMapping.hero
  /\ Row.getOverride (num := Q) "bg" None None = None
  /\ l_coords (ExactMapping.layer "bg" 0 0 100 100) = bounds ExactMapping.hero
  /\ (let c := t_coords (Row.transformLayer ExactMapping.hero ExactMapping.slot None None
                           (ExactMapping.layer "bg" 0 0 100 100)) in
      (r_x c + r_w c / 2 == 210)%Q /\ (r_y c + r_h c / 2 == 110)%Q).
Proof.
  split; [exact hero_sized |]. split; [reflexivity |]. split; [reflexivity |].
  destruct (row_centres_source_frame ExactMapping.hero None None ExactMapping.slot
              (ExactMapping.layer "bg" 0 0 100 100) hero_sized eq_refl eq_refl)
    as [Hx Hy].
  cbv zeta in *. split.
  - rewrite Hx. reflexivity.
  - rewrite Hy. reflexivity.
Defined.

(** Witness of X17: L moved by (5, 7) and doubled. *)
Lemma row_override_scales_about_centre_witness :
  sized ExactMapping.hero
  /\ Row.getOverride "L" (Some ExactMapping.feedback) None = Some ExactMapping.enlarge
  /\ (let c := t_coords (Row.transformLayer ExactMapping.hero ExactMapping.slot None
                           (Some ExactMapping.feedback)
                           (ExactMapping.layer "L" 0 0 50 50)) in
      (r_w c == 400)%Q /\ (r_x c + r_w c / 2 == 115)%Q).
Proof.
  split; [exact hero_sized |]. split; [reflexivity |].
  destruct (row_override_scales_about_centre ExactMapping.hero None
              (Some ExactMapping.feedback) ExactMapping.slot
              (ExactMapping.layer "L" 0 0 50 50) ExactMapping.enlarge
              hero_sized eq_refl) as (Hw & _ & Hx & _).
  cbv zeta in *. split.
  - rewrite Hw. reflexivity.
  - rewrite Hx. reflexivity.
Defined.

(** Witness of X18: two candidates in a target 200 high at y = 10; the
    second one is centred at 10 + 10 + 90 + 45 = 155. *)
Lemma distribute_vertical_centres_witness :
  layoutMode ExactMapping.oneColumn = Some "DISTRIBUTE_VERTICAL"
  /\ Instance.gridCandidates (Some ExactMapping.oneColumn) None ExactCase.store !! 1%nat
     = Some 1%nat
  /\ ExactCase.store !! 1%nat = Some (ExactCase.mapped "N" 30 40)
  /\ exists l',
       Instance.physicsEngine ExactCase.slot (Some ExactMapping.oneColumn) None 0
         ExactCase.store !! 1%nat = Some l'
       /\ (r_y (t_coords l') + r_h (t_coords l') / 2 == 155)%Q
       /\ r_x (t_coords l') = 30%Q.
Proof.
  do 3 (split; [reflexivity |]).
  destruct (distribute_vertical_centres ExactCase.slot ExactMapping.oneColumn None
              ExactCase.store 1 1 (ExactCase.mapped "N" 30 40)
              eq_refl eq_refl eq_refl) as (l' & Hl' & Hcentre & Hx & _).
  exists l'. split; [exact Hl' |]. split; [| exact Hx].
  rewrite Hcentre. reflexivity.
Defined.

(** Witness of X19: the two candidates of the one-row distribution are
    centred at 120 and 300, 180 apart, inside 30 .. 390. *)
Lemma distribute_horizontal_slots_witness :
  str_is (layoutMode ExactCase.flow) "DISTRIBUTE_HORIZONTAL"
  || str_is (layoutMode ExactCase.flow) "GRID" = true
  /\ (0 <= r_w ExactCase.slot)%Q
  /\ Instance.gridCandidates (Some ExactCase.flow) None ExactCase.store !! 0%nat
     = Some 0%nat
  /\ ExactCase.store !! 0%nat = Some (ExactCase.mapped "M" 50 40)
  /\ exists l',
       Instance.physicsEngine ExactCase.slot (Some ExactCase.flow) None 0
         ExactCase.store !! 0%nat = Some l'
       /\ (30 <= r_x (t_coords l') + r_w (t_coords l') / 2)%Q
       /\ (r_x (t_coords l') + r_w (t_coords l') / 2 <= 390)%Q.
Proof.
  split; [reflexivity |]. split; [discriminate |]. do 2 (split; [reflexivity |]).
  destruct (distribute_horizontal_slots ExactCase.slot ExactCase.flow None
              ExactCase.store 0 0 (ExactCase.mapped "M" 50 40)
              eq_refl ltac:(discriminate) eq_refl eq_refl)
    as (l' & Hl' & Hlow & Hhigh & _).
  exists l'. split; [exact Hl' |]. split.
  - eapply Qle_trans; [| exact Hlow]. discriminate.
  - eapply Qle_trans; [exact Hhigh |]. discriminate.
Defined.

(** Witness of X20: M, shifted from 50 to 80. *)
Lemma sweep_only_moves_right_witness :
  ExactCase.store !! 0%nat = Some (ExactCase.mapped "M" 50 40)
  /\ exists l',
       Row.collisionSolver (Some ExactCase.flow) None ExactCase.store !! 0%nat = Some l'
       /\ moved_right (ExactCase.mapped "M" 50 40) l'.
Proof.
  split; [reflexivity |].
  destruct (sweep_only_moves_right (Some ExactCase.flow) None ExactCase.store 0
              (ExactCase.mapped "M" 50 40) eq_refl) as (l' & Hl' & Hmoved & _).
  exists l'. split; [exact Hl' | exact Hmoved].
Defined.

(** Witness of X22: the strategy's override for L. *)
Lemma resolved_override_targets_layer_witness :
  Row.getOverride "L" (Some OverrideCase.feedback) (Some OverrideCase.aiStrategy)
  = Some (Sample.override "L" 1 2)
  /\ layerId (Sample.override "L" 1 2) = "L".
Proof.
  split; [reflexivity |].
  apply (resolved_override_targets_layer (Some OverrideCase.aiStrategy)
           (Some OverrideCase.feedback) "L").
  right. reflexivity.
Defined.

(** Witness of X23: L, pinned at (30, 40) inside the target at (10, 10),
    under a one-row distribution. *)
Lemma instance_locked_root_position_witness :
  exists p,
    Sample.runInstance GhostCase.pinned None = Some p
    /\ layers GhostCase.pinned !! 1%nat = Some Sample.box
    /\ Instance.getOverride (aiStrategy GhostCase.pinned) None (l_id Sample.box)
       = Some (Sample.override "L" 30 40)
    /\ exists t,
         p_layers p !! 1%nat = Some t
         /\ r_x (t_coords t) = 40%float
         /\ r_y (t_coords t) = 50%float.
Proof.
  eexists. split; [reflexivity |]. split; [reflexivity |]. split; [reflexivity |].
  destruct (instance_locked_root_position 0%float GhostCase.pinned
              (cd_bounds Sample.slot) (Some "slot-bounds-slot") None _ 1 Sample.box
              (Sample.override "L" 30 40) eq_refl eq_refl eq_refl)
    as (t & Ht & _ & Hx & Hy & _).
  exists t. split; [exact Ht |]. split.
  - rewrite Hx. reflexivity.
  - rewrite Hy. reflexivity.
Defined.

(** Witness of X24: an override for "ghost" beside the one for L. *)
Lemma unknown_override_target_is_ignored_witness :
  (forall l, In l (layers GhostCase.src) ->
             ~ In (layerId GhostCase.ghost) (layer_ids l))
  /\ Sample.runRow GhostCase.src
       (Some (with_overrides GhostCase.feedback
                ([Sample.override "L" 5 5] ++ GhostCase.ghost :: [])))
     = Sample.runRow GhostCase.src
         (Some (with_overrides GhostCase.feedback ([Sample.override "L" 5 5] ++ []))).
Proof.
  assert (forall l, In l (layers GhostCase.src) ->
                    ~ In (layerId GhostCase.ghost) (layer_ids l)) as Habsent.
  { intros l [<- | []] [Hid | []]. discriminate Hid. }
  split; [exact Habsent |].
  apply (unknown_override_target_is_ignored 0%float GhostCase.src
           (cd_bounds Sample.slot) None Sample.slot GhostCase.feedback
           [Sample.override "L" 5 5] GhostCase.ghost [] Habsent).
Defined.
